(** * libgpiod example programs: a shallow embedding and its properties

    The repository holds four small C++ programs written against libgpiod v2:
    [input_events.cpp], [input_simple.cpp], [output_simple.cpp] and
    [output1_simple.cpp].  Each is one [main] that configures lines, asks the
    kernel for them, installs a SIGINT handler, loops, and tears down.

    Every [main] is embedded as a computation in a small process monad.  The
    monad threads the process state (the [quitting] flag, what SIGINT does at
    the moment, and the sequence of library calls made so far) and can stop
    the process: a failed [assert] aborts it, an uncaught SIGINT kills it.
    What the kernel and the operator do is an explicit input: the replies of
    the calls made during set-up, and one record per iteration of the loop.

    The programs are built as [CMakeLists.txt] says, with [-Wall] only, so
    [assert] is live. *)

From Stdlib Require Import ZArith List String Ascii Bool DecimalString Lia.
Import ListNotations.

Open Scope string_scope.
Open Scope list_scope.
Open Scope Z_scope.

Set Implicit Arguments.

(* ================================================================== *)
(** * What gpiod.h declares *)
(* ================================================================== *)

Inductive gpiod_line_direction :=
| GPIOD_LINE_DIRECTION_AS_IS
| GPIOD_LINE_DIRECTION_INPUT
| GPIOD_LINE_DIRECTION_OUTPUT.

Inductive gpiod_line_edge :=
| GPIOD_LINE_EDGE_NONE
| GPIOD_LINE_EDGE_RISING
| GPIOD_LINE_EDGE_FALLING
| GPIOD_LINE_EDGE_BOTH.

Inductive gpiod_line_bias :=
| GPIOD_LINE_BIAS_AS_IS
| GPIOD_LINE_BIAS_UNKNOWN
| GPIOD_LINE_BIAS_DISABLED
| GPIOD_LINE_BIAS_PULL_UP
| GPIOD_LINE_BIAS_PULL_DOWN.

Inductive gpiod_line_drive :=
| GPIOD_LINE_DRIVE_PUSH_PULL
| GPIOD_LINE_DRIVE_OPEN_DRAIN
| GPIOD_LINE_DRIVE_OPEN_SOURCE.

Inductive gpiod_line_clock :=
| GPIOD_LINE_CLOCK_MONOTONIC
| GPIOD_LINE_CLOCK_REALTIME
| GPIOD_LINE_CLOCK_HTE.

Inductive gpiod_line_value :=
| GPIOD_LINE_VALUE_ERROR
| GPIOD_LINE_VALUE_INACTIVE
| GPIOD_LINE_VALUE_ACTIVE.

Inductive gpiod_edge_event_type :=
| GPIOD_EDGE_EVENT_RISING_EDGE
| GPIOD_EDGE_EVENT_FALLING_EDGE.

(** One edge event, as the getters of [gpiod_edge_event] show it.  The
    sequence numbers are [unsigned long], the offset [unsigned int], the
    timestamp [uint64_t]; all are kept as integers. *)
Record gpiod_edge_event := mkEvent {
  global_seqno : Z;
  line_seqno : Z;
  line_offset : Z;
  event_type : gpiod_edge_event_type;
  timestamp_ns : Z
}.

Definition nullptr : Z := 0.
Definition EINTR : Z := 4.

(** [uint64_t] arithmetic wraps. *)
Definition uint64_sub (a b : Z) : Z := (a - b) mod 2 ^ 64.

Definition line_value_eqb (v w : gpiod_line_value) : bool :=
  match v, w with
  | GPIOD_LINE_VALUE_ERROR, GPIOD_LINE_VALUE_ERROR
  | GPIOD_LINE_VALUE_INACTIVE, GPIOD_LINE_VALUE_INACTIVE
  | GPIOD_LINE_VALUE_ACTIVE, GPIOD_LINE_VALUE_ACTIVE => true
  | _, _ => false
  end.

(* ================================================================== *)
(** * printf *)
(* ================================================================== *)

(** Decimal text of an integer. *)
Definition dec (z : Z) : string := NilZero.string_of_int (Z.to_int z).

(** The conversions the programs use are [%lu], [%u] and [%d]: inside a
    directive the length modifier [l] is skipped and the next letter consumes
    one argument. *)
Fixpoint render (directive : bool) (format : string) (args : list Z) : string :=
  match format with
  | EmptyString => EmptyString
  | String ch rest =>
      if directive then
        if Ascii.eqb ch "l" then render true rest args
        else match args with
             | a :: args' => (dec a ++ render false rest args')%string
             | [] => render false rest []
             end
      else if Ascii.eqb ch "%" then render true rest args
      else String ch (render false rest args)
  end.

(** [PRIu64] of <inttypes.h>, as on a 64-bit Linux. *)
Definition PRIu64 : string := "lu".

(* ================================================================== *)
(** * The process monad *)
(* ================================================================== *)

(** The calls a program makes, with the arguments that matter here.
    [ctrl_c_handler] is a run of the SIGINT handler.  Reading the count of a
    buffer or a field of an event leaves no entry. *)
Inductive call :=
| gpiod_edge_event_buffer_new (capacity : Z)
| gpiod_line_settings_new
| gpiod_line_settings_set_direction (d : gpiod_line_direction)
| gpiod_line_settings_set_edge_detection (e : gpiod_line_edge)
| gpiod_line_settings_set_bias (b : gpiod_line_bias)
| gpiod_line_settings_set_drive (d : gpiod_line_drive)
| gpiod_line_settings_set_debounce_period_us (us : Z)
| gpiod_line_settings_set_event_clock (c : gpiod_line_clock)
| gpiod_line_config_new
| gpiod_line_config_add_line_settings (offsets : list Z) (num_offsets : Z)
| gpiod_line_config_set_output_values (values : list gpiod_line_value) (num_values : Z)
| gpiod_line_settings_free
| gpiod_chip_open (path : string)
| gpiod_request_config_new
| gpiod_request_config_set_consumer (consumer : string)
| gpiod_chip_request_lines
| gpiod_request_config_free
| gpiod_line_config_free
| printf (format : string) (args : list Z)
| signal_SIGINT
| ctrl_c_handler
| gpiod_line_request_wait_edge_events (timeout_ns : Z)
| gpiod_line_request_read_edge_events (max_events : Z)
| gpiod_edge_event_buffer_get_event (index : nat)
| gpiod_line_request_get_values
| gpiod_line_request_set_values (values : list gpiod_line_value)
| gpiod_line_request_set_value (offset : Z) (value : gpiod_line_value)
| sleep (seconds : Z)
| usleep (usec : Z)
| gpiod_line_request_release
| gpiod_chip_close.

(** What a SIGINT does to the process. *)
Inductive sigaction := SIG_DFL | SIG_IGN | SIG_ctrl_c_handler.

Record proc := mkProc {
  quitting : bool;               (* static bool quitting *)
  sigint_action : sigaction;
  sigint_due : option nat;       (* a SIGINT arrives during set-up, once this
                                    many calls have been made *)
  trace : list call
}.

Inductive outcome :=
| Returned (status : Z)          (* main returned *)
| Aborted                        (* an assert failed *)
| Killed                         (* SIGINT with the default action *)
| Crashed                        (* null pointer dereferenced *)
| Running.                       (* still running when the observation ends *)

Inductive step (A : Type) :=
| Next (a : A) (p : proc)
| Stop (o : outcome) (p : proc).

Arguments Stop {A} o p.

Definition M (A : Type) : Type := proc -> step A.

Definition ret {A} (a : A) : M A := fun p => Next a p.

Definition bind {A B} (m : M A) (k : A -> M B) : M B :=
  fun p => match m p with
           | Next a p' => k a p'
           | Stop o p' => Stop o p'
           end.

Declare Scope proc_scope.
Delimit Scope proc_scope with proc.
Notation "x <- m ;; k" := (bind m (fun x => k))
  (at level 61, m at next level, right associativity) : proc_scope.
Notation "m ;; k" := (bind m (fun _ => k))
  (at level 61, right associativity) : proc_scope.
Open Scope proc_scope.

Definition halt {A} (o : outcome) : M A := fun p => Stop o p.

Definition log (c : call) (p : proc) : proc :=
  mkProc (quitting p) (sigint_action p) (sigint_due p) (trace p ++ [c]).

(** A library or libc call made in the loop or after it. *)
Definition invoke (c : call) : M unit := fun p => Next tt (log c p).

(** assert(cond) *)
Definition assert (cond : bool) : M unit :=
  if cond then ret tt else halt Aborted.

(** static void ctrl_c_handler(int notused) { quitting = true; } *)
Definition run_ctrl_c_handler (p : proc) : proc :=
  mkProc true (sigint_action p) (sigint_due p) (trace p ++ [ctrl_c_handler]).

(** Arrival of a SIGINT, when [arrives] is set. *)
Definition deliver (arrives : bool) : M unit :=
  fun p =>
    if arrives then
      match sigint_action p with
      | SIG_DFL => Stop Killed p
      | SIG_IGN => Next tt p
      | SIG_ctrl_c_handler => Next tt (run_ctrl_c_handler p)
      end
    else Next tt p.

Definition due_now (p : proc) : bool :=
  match sigint_due p with
  | Some k => Nat.eqb k (List.length (trace p))
  | None => false
  end.

(** A call made during set-up: the scheduled SIGINT may arrive just before it. *)
Definition startup (c : call) : M unit :=
  (fun p => deliver (due_now p) p) ;; invoke c.

(** signal(SIGINT, ctrl_c_handler) *)
Definition signal (p : proc) : step unit :=
  Next tt (mkProc (quitting p) SIG_ctrl_c_handler (sigint_due p)
                  (trace p ++ [signal_SIGINT])).

Definition install_handler : M unit :=
  (fun p => deliver (due_now p) p) ;; signal.

Definition get_quitting : M bool := fun p => Next (quitting p) p.

(** while (!quitting) { body }.  Each iteration takes one record of the
    environment; [arrival c] says that a SIGINT came in since the last test.
    The body answers [None] for [break].  With no record left and [quitting]
    unset the process is still in the loop. *)
Section While.
Variables C S : Type.
Variable arrival : C -> bool.
Variable body : C -> S -> M (option S).

Fixpoint while_not_quitting (cycles : list C) (s : S) : M S :=
  match cycles with
  | [] => q <- get_quitting ;; if q then ret s else halt Running
  | c :: rest =>
      deliver (arrival c) ;;
      q <- get_quitting ;;
      if q then ret s
      else r <- body c s ;;
           match r with
           | None => ret s
           | Some s' => while_not_quitting rest s'
           end
  end.
End While.

(** The process as the shell starts it. *)
Definition fresh (sigint_ignored : bool) (sigint_after : option nat) : proc :=
  mkProc false (if sigint_ignored then SIG_IGN else SIG_DFL) sigint_after [].

(** The state a step ends in. *)
Definition final {A} (r : step A) : proc :=
  match r with
  | Next _ p => p
  | Stop _ p => p
  end.

Definition run (m : M Z) (p : proc) : outcome * proc :=
  match m p with
  | Next status p' => (Returned status, p')
  | Stop o p' => (o, p')
  end.

(** ** A set-up as a list of steps

    The calls made before signal(), each with the check the source makes on
    what the call hands back ([true] where it checks nothing), run in order;
    [finish] is what follows. *)
Fixpoint run_steps (steps : list (call * bool)) (finish : M unit) : M unit :=
  match steps with
  | [] => finish
  | (c, ok) :: later => startup c ;; assert ok ;; run_steps later finish
  end.

(** The index of the first step whose check fails. *)
Fixpoint first_failure (steps : list (call * bool)) : option nat :=
  match steps with
  | [] => None
  | (_, ok) :: later =>
      if ok then option_map S (first_failure later) else Some 0%nat
  end.

(** Does the scheduled SIGINT kill the process that has made [n] calls? *)
Definition kills (action : sigaction) (due : option nat) (n : nat) : bool :=
  match action, due with
  | SIG_DFL, Some k => Nat.eqb k n
  | _, _ => false
  end.

(** ** Reading a trace *)

Definition is_release (c : call) : bool :=
  match c with gpiod_line_request_release => true | _ => false end.
Definition is_close (c : call) : bool :=
  match c with gpiod_chip_close => true | _ => false end.
Definition is_request (c : call) : bool :=
  match c with gpiod_chip_request_lines => true | _ => false end.
Definition is_handler_run (c : call) : bool :=
  match c with ctrl_c_handler => true | _ => false end.
Definition is_printf (c : call) : bool :=
  match c with printf _ _ => true | _ => false end.

Definition count (f : call -> bool) (tr : list call) : nat :=
  List.length (filter f tr).

(** What reached stdout. *)
Fixpoint stdout (tr : list call) : string :=
  match tr with
  | [] => EmptyString
  | printf format args :: rest =>
      (render false format args ++ stdout rest)%string
  | _ :: rest => stdout rest
  end.

(** Does some [gpiod_chip_close] happen while a granted request is not yet
    released?  [held] says whether the request is held on entry. *)
Fixpoint closes_while_held (held : bool) (tr : list call) : bool :=
  match tr with
  | [] => false
  | gpiod_chip_request_lines :: rest => closes_while_held true rest
  | gpiod_line_request_release :: rest => closes_while_held false rest
  | gpiod_chip_close :: rest => held || closes_while_held held rest
  | _ :: rest => closes_while_held held rest
  end.

(** No [gpiod_line_request_release] and no [gpiod_chip_close]. *)
Definition quiet (tr : list call) : Prop :=
  forallb (fun c => negb (is_release c) && negb (is_close c)) tr = true.

(** How a run of output1_simple ends: the chip is closed during set-up, the
    release is the last call. *)
Definition closes_early (calls : list call) (o : outcome) (tr : list call)
  : Prop :=
  match o with
  | Returned status =>
      status = 0 /\
      closes_while_held false tr = true /\
      exists mid,
        tr = calls ++ mid ++ [gpiod_line_request_release] /\ quiet mid
  | Aborted | Killed | Running =>
      count is_release tr = 0%nat /\ (count is_close tr <= 1)%nat
  | Crashed => False
  end.

(** The process after some more calls. *)
Definition extend (p : proc) (calls : list call) : proc :=
  mkProc (quitting p) (sigint_action p) (sigint_due p) (trace p ++ calls).

(** How a run ends in a program that releases the request and then closes
    the chip as its last two calls. *)
Definition orderly (o : outcome) (tr : list call) : Prop :=
  match o with
  | Returned status =>
      status = 0 /\
      exists pre,
        tr = pre ++ [gpiod_line_request_release; gpiod_chip_close] /\ quiet pre
  | Aborted | Killed | Running => quiet tr
  | Crashed => False
  end.

(** ** Hoare triples over the monad

    [triple P m Q E]: from a state in [P], [m] either goes on in a state in
    [Q] or stops the process with an outcome and a state in [E]. *)
Definition triple {A} (P : proc -> Prop) (m : M A)
           (Q : A -> proc -> Prop) (E : outcome -> proc -> Prop) : Prop :=
  forall p, P p ->
    match m p with
    | Next a p' => Q a p'
    | Stop o p' => E o p'
    end.

(** In or after the loop: the handler is installed, the calls of [base] are
    made, and every call made since satisfies [g]; [fact] is what is known of
    the environment. *)
Definition looping (g : call -> bool) (base : list call) (fact : Prop)
           (p : proc) : Prop :=
  fact /\ sigint_action p = SIG_ctrl_c_handler /\
  exists ext, trace p = base ++ ext /\ forallb g ext = true.

(** A process stopped in the loop. *)
Definition halted (g : call -> bool) (base : list call) (fact : Prop)
           (o : outcome) (p : proc) : Prop :=
  (o = Aborted \/ o = Running) /\ looping g base fact p.

(** Neither a release nor a close. *)
Definition keeps_handles (c : call) : bool :=
  negb (is_release c) && negb (is_close c).

(** During set-up: [n] calls of [calls] are made, [quitting] is unset, SIGINT
    still has the action the process was started with, and a scheduled SIGINT
    that would kill has not arrived yet. *)
Definition setting_up (ignored : bool) (due : option nat) (calls : list call)
           (n : nat) (p : proc) : Prop :=
  p = mkProc false (if ignored then SIG_IGN else SIG_DFL) due (firstn n calls) /\
  (ignored = false -> forall k, due = Some k -> (n <= k)%nat).

(** A process stopped during set-up. *)
Definition stopped_early (ignored : bool) (due : option nat) (calls : list call)
           (o : outcome) (p : proc) : Prop :=
  (o = Aborted \/ o = Killed) /\
  exists n, (n < List.length calls)%nat /\
    p = mkProc false (if ignored then SIG_IGN else SIG_DFL) due (firstn n calls).

(** The ways a run of a program can end or be observed: stopped during
    set-up, stopped in the loop, or returned with status 0 after the calls
    of [tail]. *)
Definition run_shape (ignored : bool) (due : option nat) (calls : list call)
           (g : call -> bool) (tail : list call) (o : outcome) (p : proc)
  : Prop :=
  stopped_early ignored due calls o p \/
  halted g calls True o p \/
  (o = Returned 0 /\
   exists ext, trace p = calls ++ ext ++ tail /\ forallb g ext = true).

Definition nl : string := String (ascii_of_nat 10) EmptyString.

(* ================================================================== *)
(** * input_events.cpp *)
(* ================================================================== *)

Module InputEvents.

Definition chip_path : string := "/dev/gpiochip0".
Definition a_gpio_num : Z := 23.
Definition b_gpio_num : Z := 24.
Definition gpio_pin_cnt : Z := 2.
Definition max_events : Z := 32.
Definition debounce_us : Z := 1000.

(** What the environment answers during set-up: the pointers and status
    codes the library hands back, whether SIGINT was ignored when the
    program was started, and when a SIGINT arrives, if one does. *)
Record boot := mkBoot {
  sigint_ignored : bool;
  sigint_after : option nat;
  events : Z;
  settings : Z;
  line_config : Z;
  r1 : Z;
  chip : Z;
  request_config : Z;
  request : Z
}.

(** What the environment does during one iteration of the loop.  [buffer]
    is the content of the event buffer after the read:
    [gpiod_edge_event_buffer_get_num_events] is its length and
    [gpiod_edge_event_buffer_get_event] its indexing. *)
Record cycle := mkCycle {
  sigint_at_test : bool;       (* a SIGINT came in before [!quitting] is tested *)
  r2 : Z;                      (* gpiod_line_request_wait_edge_events *)
  errno : Z;
  sigint_in_wait : bool;       (* a SIGINT came in during the wait *)
  num_events : Z;              (* gpiod_line_request_read_edge_events *)
  buffer : list gpiod_edge_event
}.

Definition offsets : list Z := [a_gpio_num; b_gpio_num].

Definition record_format : string := ("%lu:%lu pin %u = %u @ %" ++ PRIu64)%string.
Definition delta_format : string := (" +%" ++ PRIu64)%string.

(** Body of the for loop, lines 164-177. *)
Definition report_event (event : gpiod_edge_event) (last_ns : Z) : M Z :=
  let pin_val :=
    match event_type event with
    | GPIOD_EDGE_EVENT_RISING_EDGE => 1
    | GPIOD_EDGE_EVENT_FALLING_EDGE => 0
    end in
  invoke (printf record_format
            [global_seqno event; line_seqno event; line_offset event;
             pin_val; timestamp_ns event]) ;;
  (if negb (last_ns =? 0)
   then invoke (printf delta_format [uint64_sub (timestamp_ns event) last_ns])
   else ret tt) ;;
  invoke (printf nl []) ;;
  ret (timestamp_ns event).

(** for (unsigned i = 0; i < get_num_events(events); i++): [left] counts
    the iterations still to run. *)
Fixpoint print_events (buf : list gpiod_edge_event) (i left : nat)
                      (last_ns : Z) : M Z :=
  match left with
  | O => ret last_ns
  | S left' =>
      invoke (gpiod_edge_event_buffer_get_event i) ;;
      match nth_error buf i with
      | Some event =>
          last_ns' <- report_event event last_ns ;;
          print_events buf (S i) left' last_ns'
      | None => halt Crashed
      end
  end.

(** Body of the while loop, lines 145-182. *)
Definition monitor (c : cycle) (last_ns : Z) : M (option Z) :=
  invoke (gpiod_line_request_wait_edge_events (-1)) ;;
  deliver (sigint_in_wait c) ;;
  if (r2 c <? 0) && (errno c =? EINTR) then ret None
  else
    assert (r2 c =? 1) ;;
    invoke (gpiod_line_request_read_edge_events max_events) ;;
    assert (num_events c >? 0) ;;
    last_ns' <- print_events (buffer c) 0 (List.length (buffer c)) last_ns ;;
    invoke (printf nl []) ;;
    ret (Some last_ns').

(** Lines 38-143: everything up to and including signal(). *)
Definition set_up (b : boot) : M unit :=
  startup (gpiod_edge_event_buffer_new max_events) ;;
  assert (negb (events b =? nullptr)) ;;
  startup gpiod_line_settings_new ;;
  assert (negb (settings b =? nullptr)) ;;
  startup (gpiod_line_settings_set_direction GPIOD_LINE_DIRECTION_INPUT) ;;
  startup (gpiod_line_settings_set_edge_detection GPIOD_LINE_EDGE_BOTH) ;;
  startup (gpiod_line_settings_set_bias GPIOD_LINE_BIAS_PULL_UP) ;;
  startup (gpiod_line_settings_set_debounce_period_us debounce_us) ;;
  startup (gpiod_line_settings_set_event_clock GPIOD_LINE_CLOCK_MONOTONIC) ;;
  startup gpiod_line_config_new ;;
  assert (negb (line_config b =? nullptr)) ;;
  startup (gpiod_line_config_add_line_settings offsets gpio_pin_cnt) ;;
  assert (r1 b =? 0) ;;
  startup gpiod_line_settings_free ;;
  startup (gpiod_chip_open chip_path) ;;
  assert (negb (chip b =? nullptr)) ;;
  startup gpiod_request_config_new ;;
  assert (negb (request_config b =? nullptr)) ;;
  startup (gpiod_request_config_set_consumer "input_events") ;;
  startup gpiod_chip_request_lines ;;
  assert (negb (request b =? nullptr)) ;;
  startup gpiod_request_config_free ;;
  startup gpiod_line_config_free ;;
  startup (printf ("debounce time = %lu usec" ++ nl)%string [debounce_us]) ;;
  install_handler.

(** Lines 184-190. *)
Definition tear_down : M Z :=
  invoke gpiod_line_request_release ;;
  invoke gpiod_chip_close ;;
  ret 0.

Definition main (b : boot) (cycles : list cycle) : M Z :=
  set_up b ;;
  _ <- while_not_quitting sigint_at_test monitor cycles 0 ;;  (* last_ns = 0 *)
  tear_down.

Definition start (b : boot) : proc := fresh (sigint_ignored b) (sigint_after b).

Definition exec (b : boot) (cycles : list cycle) : outcome * proc :=
  run (main b cycles) (start b).

(** ** Views of a run, for the statements below *)

(** The calls of a set-up that goes through. *)
Definition before_signal : list call :=
  [ gpiod_edge_event_buffer_new max_events;
    gpiod_line_settings_new;
    gpiod_line_settings_set_direction GPIOD_LINE_DIRECTION_INPUT;
    gpiod_line_settings_set_edge_detection GPIOD_LINE_EDGE_BOTH;
    gpiod_line_settings_set_bias GPIOD_LINE_BIAS_PULL_UP;
    gpiod_line_settings_set_debounce_period_us debounce_us;
    gpiod_line_settings_set_event_clock GPIOD_LINE_CLOCK_MONOTONIC;
    gpiod_line_config_new;
    gpiod_line_config_add_line_settings offsets gpio_pin_cnt;
    gpiod_line_settings_free;
    gpiod_chip_open chip_path;
    gpiod_request_config_new;
    gpiod_request_config_set_consumer "input_events";
    gpiod_chip_request_lines;
    gpiod_request_config_free;
    gpiod_line_config_free;
    printf ("debounce time = %lu usec" ++ nl)%string [debounce_us] ].

Definition set_up_calls : list call := before_signal ++ [signal_SIGINT].

(** Every allocation and request succeeds and no SIGINT arrives before the
    handler is installed. *)
Definition boots (b : boot) : bool :=
  negb (events b =? nullptr) && negb (settings b =? nullptr) &&
  negb (line_config b =? nullptr) && (r1 b =? 0) &&
  negb (chip b =? nullptr) && negb (request_config b =? nullptr) &&
  negb (request b =? nullptr) &&
  match sigint_after b with None => true | Some _ => false end.

(** The state in which the loop is entered after such a set-up. *)
Definition ready : proc := mkProc false SIG_ctrl_c_handler None set_up_calls.

(** An iteration in which events are ready and read, with no SIGINT. *)
Definition completes (c : cycle) : bool :=
  negb (sigint_at_test c) && negb (sigint_in_wait c) &&
  (r2 c =? 1) && (num_events c >? 0).

(** An iteration whose wait comes back negative with EINTR. *)
Definition interrupted (c : cycle) : bool :=
  negb (sigint_at_test c) && (r2 c <? 0) && (errno c =? EINTR).

(** An iteration in which an assert fails. *)
Definition fails (c : cycle) : bool :=
  negb (sigint_at_test c) && negb (sigint_in_wait c) &&
  negb ((r2 c <? 0) && (errno c =? EINTR)) &&
  (negb (r2 c =? 1) || negb (num_events c >? 0)).

Definition level (event : gpiod_edge_event) : Z :=
  match event_type event with
  | GPIOD_EDGE_EVENT_RISING_EDGE => 1
  | GPIOD_EDGE_EVENT_FALLING_EDGE => 0
  end.

(** The arguments of the printf that starts the record of an event. *)
Definition fields (event : gpiod_edge_event) : list Z :=
  [global_seqno event; line_seqno event; line_offset event; level event;
   timestamp_ns event].

(** The calls one event, one batch, one iteration and a run of iterations
    leave in the trace. *)
Definition event_calls (last_ns : Z) (event : gpiod_edge_event) : list call :=
  printf record_format (fields event)
    :: (if last_ns =? 0 then []
        else [printf delta_format [uint64_sub (timestamp_ns event) last_ns]])
    ++ [printf nl []].

Fixpoint batch_calls (i : nat) (last_ns : Z) (batch : list gpiod_edge_event)
  : list call :=
  match batch with
  | [] => []
  | event :: later =>
      gpiod_edge_event_buffer_get_event i :: event_calls last_ns event
        ++ batch_calls (S i) (timestamp_ns event) later
  end.

Definition last_after (last_ns : Z) (batch : list gpiod_edge_event) : Z :=
  fold_left (fun _ event => timestamp_ns event) batch last_ns.

Definition cycle_calls (last_ns : Z) (c : cycle) : list call :=
  gpiod_line_request_wait_edge_events (-1)
    :: gpiod_line_request_read_edge_events max_events
    :: batch_calls 0 last_ns (buffer c) ++ [printf nl []].

Fixpoint session_calls (last_ns : Z) (cycles : list cycle) : list call :=
  match cycles with
  | [] => []
  | c :: later =>
      cycle_calls last_ns c
        ++ session_calls (last_after last_ns (buffer c)) later
  end.

Fixpoint session_last (last_ns : Z) (cycles : list cycle) : Z :=
  match cycles with
  | [] => last_ns
  | c :: later => session_last (last_after last_ns (buffer c)) later
  end.

(** The events a run of iterations reports, in order. *)
Definition reported (cycles : list cycle) : list gpiod_edge_event :=
  List.concat (map buffer cycles).

(** The records found in a trace: the arguments of each record printf, and
    the argument of the delta printf when one follows it. *)
Fixpoint records_of (tr : list call) : list (list Z * option Z) :=
  match tr with
  | [] => []
  | printf format args :: rest =>
      if String.eqb format record_format then
        (args,
         match rest with
         | printf format' [d] :: _ =>
             if String.eqb format' delta_format then Some d else None
         | _ => None
         end) :: records_of rest
      else records_of rest
  | _ :: rest => records_of rest
  end.

(** The records a batch leaves when the previous timestamp is [last_ns]. *)
Fixpoint annotate (last_ns : Z) (batch : list gpiod_edge_event)
  : list (list Z * option Z) :=
  match batch with
  | [] => []
  | event :: later =>
      (fields event,
       if last_ns =? 0 then None
       else Some (uint64_sub (timestamp_ns event) last_ns))
        :: annotate (timestamp_ns event) later
  end.

(** The indices passed to gpiod_edge_event_buffer_get_event, and the
    capacities passed to gpiod_line_request_read_edge_events. *)
Fixpoint visited (tr : list call) : list nat :=
  match tr with
  | [] => []
  | gpiod_edge_event_buffer_get_event i :: rest => i :: visited rest
  | _ :: rest => visited rest
  end.

Fixpoint read_capacities (tr : list call) : list Z :=
  match tr with
  | [] => []
  | gpiod_line_request_read_edge_events n :: rest => n :: read_capacities rest
  | _ :: rest => read_capacities rest
  end.

(** The calls of the loop. *)
Definition monitoring (c : call) : bool :=
  match c with
  | gpiod_line_request_wait_edge_events _
  | gpiod_line_request_read_edge_events _
  | gpiod_edge_event_buffer_get_event _
  | printf _ _
  | ctrl_c_handler => true
  | _ => false
  end.

(** The calls of the loop and of the tear-down. *)
Definition after_signal (c : call) : bool :=
  monitoring c || is_release c || is_close c.

(** A SIGINT that would kill, if one is scheduled, comes after the 18
    calls of the set-up. *)
Definition late_sigint (b : boot) : Prop :=
  sigint_ignored b = false ->
  forall k, sigint_after b = Some k -> (18 <= k)%nat.

(** The three ways a run of main can end or be observed. *)
Definition shape (b : boot) (o : outcome) (p : proc) : Prop :=
  stopped_early (sigint_ignored b) (sigint_after b) set_up_calls o p \/
  halted monitoring set_up_calls (late_sigint b) o p \/
  (o = Returned 0 /\ late_sigint b /\
   exists ext,
     trace p = set_up_calls ++ ext
                 ++ [gpiod_line_request_release; gpiod_chip_close] /\
     forallb monitoring ext = true).

(** *** The words of the specification *)

(** The output line of an event:
    <global_seqno>:<line_seqno> pin <offset> = <0|1> @ <timestamp_ns>[ +<delta_ns>] *)
Definition spec_record (event : gpiod_edge_event) (delta : option Z) : string :=
  (dec (global_seqno event) ++ ":" ++ dec (line_seqno event) ++ " pin "
    ++ dec (line_offset event) ++ " = "
    ++ match event_type event with
       | GPIOD_EDGE_EVENT_RISING_EDGE => "1"
       | GPIOD_EDGE_EVENT_FALLING_EDGE => "0"
       end
    ++ " @ " ++ dec (timestamp_ns event)
    ++ match delta with
       | Some d => " +" ++ dec d
       | None => ""
       end)%string.

(** The deltas of a batch reported when the previous timestamp is
    [last_ns]. *)
Fixpoint deltas (last_ns : Z) (batch : list gpiod_edge_event)
  : list (option Z) :=
  match batch with
  | [] => []
  | event :: later =>
      (if last_ns =? 0 then None
       else Some (uint64_sub (timestamp_ns event) last_ns))
        :: deltas (timestamp_ns event) later
  end.

(** A batch on stdout: one line per event, then a blank line. *)
Fixpoint batch_text (batch : list gpiod_edge_event) (ds : list (option Z))
  : string :=
  match batch, ds with
  | event :: later, d :: ds' =>
      (spec_record event d ++ nl ++ batch_text later ds')%string
  | _, _ => nl
  end.

(** Modelled from the spec: the EdgeEventReader, which is
    gpiod_line_request_read_edge_events of libgpiod and not part of the
    sources.  "read(request, buffer, capacity) -> count where
    0 < count <= capacity on success.  Each call fully overwrites buffer
    starting at index 0."  "The count of events actually present after a
    read is <= capacity and is returned by the read operation."  "Fails
    with IOError (fatal) if the underlying read fails."  [pending] is what
    the kernel holds for the request, [None] when the underlying read
    fails; the answer is the count, or -1, and the content of the buffer. *)
Definition EdgeEventReader_read (pending : option (list gpiod_edge_event))
           (capacity : Z) : Z * list gpiod_edge_event :=
  match pending with
  | None => (-1, [])
  | Some queue =>
      match firstn (Z.to_nat capacity) queue with
      | [] => (-1, [])
      | batch => (Z.of_nat (List.length batch), batch)
      end
  end.

(** The read of an iteration is one such a reader gives for the capacity
    [main] passes. *)
Definition served (c : cycle) : Prop :=
  exists pending,
    (num_events c, buffer c) = EdgeEventReader_read pending max_events.

(** ** More views of a run *)

(** The calls of [set_up] before signal(), each with the check the source
    makes on its reply. *)
Definition checks (b : boot) : list (call * bool) :=
  [ (gpiod_edge_event_buffer_new max_events, negb (events b =? nullptr));
    (gpiod_line_settings_new, negb (settings b =? nullptr));
    (gpiod_line_settings_set_direction GPIOD_LINE_DIRECTION_INPUT, true);
    (gpiod_line_settings_set_edge_detection GPIOD_LINE_EDGE_BOTH, true);
    (gpiod_line_settings_set_bias GPIOD_LINE_BIAS_PULL_UP, true);
    (gpiod_line_settings_set_debounce_period_us debounce_us, true);
    (gpiod_line_settings_set_event_clock GPIOD_LINE_CLOCK_MONOTONIC, true);
    (gpiod_line_config_new, negb (line_config b =? nullptr));
    (gpiod_line_config_add_line_settings offsets gpio_pin_cnt, r1 b =? 0);
    (gpiod_line_settings_free, true);
    (gpiod_chip_open chip_path, negb (chip b =? nullptr));
    (gpiod_request_config_new, negb (request_config b =? nullptr));
    (gpiod_request_config_set_consumer "input_events", true);
    (gpiod_chip_request_lines, negb (request b =? nullptr));
    (gpiod_request_config_free, true);
    (gpiod_line_config_free, true);
    (printf ("debounce time = %lu usec" ++ nl)%string [debounce_us], true) ].

(** The reminder printed before the loop. *)
Definition banner : string :=
  render false ("debounce time = %lu usec" ++ nl)%string [debounce_us].

(** What a run of iterations prints: batch after batch. *)
Fixpoint session_text (last_ns : Z) (cycles : list cycle) : string :=
  match cycles with
  | [] => EmptyString
  | c :: later =>
      (batch_text (buffer c) (deltas last_ns (buffer c))
         ++ session_text (last_after last_ns (buffer c)) later)%string
  end.

(** An iteration in which a Ctrl-C arrives during the wait and the wait
    still reports events. *)
Definition late_ctrl_c (c : cycle) : bool :=
  negb (sigint_at_test c) && sigint_in_wait c &&
  (r2 c =? 1) && (num_events c >? 0).

End InputEvents.

(* ================================================================== *)
(** * input_simple.cpp *)
(* ================================================================== *)

Module InputSimple.

Definition chip_path : string := "/dev/gpiochip0".
Definition a_gpio_num : Z := 23.
Definition b_gpio_num : Z := 24.
Definition gpio_pin_cnt : Z := 2.
Definition debounce_us : Z := 1000.

Record boot := mkBoot {
  sigint_ignored : bool;
  sigint_after : option nat;
  settings : Z;
  line_config : Z;
  r1 : Z;
  chip : Z;
  request_config : Z;
  request : Z;
  r2 : Z;                                             (* first get_values *)
  values_old : gpiod_line_value * gpiod_line_value    (* what it stored *)
}.

Record cycle := mkCycle {
  sigint_at_test : bool;
  r3 : Z;                                             (* get_values *)
  values_new : gpiod_line_value * gpiod_line_value
}.

Definition offsets : list Z := [a_gpio_num; b_gpio_num].

(** Body of the for loop, lines 146-149, for one index. *)
Definition print_change (offset : Z) (old new : gpiod_line_value)
  : M gpiod_line_value :=
  if negb (line_value_eqb old new) then
    invoke (printf ("pin %u = %d" ++ nl)%string
              [offset;
               match new with GPIOD_LINE_VALUE_ACTIVE => 1 | _ => 0 end]) ;;
    ret new
  else ret old.

(** Body of the while loop, lines 138-154. *)
Definition poll (c : cycle) (old : gpiod_line_value * gpiod_line_value)
  : M (option (gpiod_line_value * gpiod_line_value)) :=
  invoke gpiod_line_request_get_values ;;
  assert (r3 c =? 0) ;;
  v0 <- print_change a_gpio_num (fst old) (fst (values_new c)) ;;
  v1 <- print_change b_gpio_num (snd old) (snd (values_new c)) ;;
  invoke (usleep 1000) ;;
  ret (Some (v0, v1)).

(** Lines 41-136. *)
Definition set_up (b : boot) : M unit :=
  startup gpiod_line_settings_new ;;
  assert (negb (settings b =? nullptr)) ;;
  startup (gpiod_line_settings_set_direction GPIOD_LINE_DIRECTION_INPUT) ;;
  startup (gpiod_line_settings_set_edge_detection GPIOD_LINE_EDGE_NONE) ;;
  startup (gpiod_line_settings_set_bias GPIOD_LINE_BIAS_PULL_UP) ;;
  startup (gpiod_line_settings_set_debounce_period_us debounce_us) ;;
  startup gpiod_line_config_new ;;
  assert (negb (line_config b =? nullptr)) ;;
  startup (gpiod_line_config_add_line_settings offsets gpio_pin_cnt) ;;
  assert (r1 b =? 0) ;;
  startup gpiod_line_settings_free ;;
  startup (gpiod_chip_open chip_path) ;;
  assert (negb (chip b =? nullptr)) ;;
  startup gpiod_request_config_new ;;
  assert (negb (request_config b =? nullptr)) ;;
  startup (gpiod_request_config_set_consumer "input_events") ;;
  startup gpiod_chip_request_lines ;;
  assert (negb (request b =? nullptr)) ;;
  startup gpiod_request_config_free ;;
  startup gpiod_line_config_free ;;
  startup (printf ("debounce time = %lu usec" ++ nl)%string [debounce_us]) ;;
  install_handler ;;
  invoke gpiod_line_request_get_values ;;
  assert (r2 b =? 0).

(** Lines 156-162. *)
Definition tear_down : M Z :=
  invoke gpiod_line_request_release ;;
  invoke gpiod_chip_close ;;
  ret 0.

Definition main (b : boot) (cycles : list cycle) : M Z :=
  set_up b ;;
  _ <- while_not_quitting sigint_at_test poll cycles (values_old b) ;;
  tear_down.

Definition start (b : boot) : proc := fresh (sigint_ignored b) (sigint_after b).

Definition exec (b : boot) (cycles : list cycle) : outcome * proc :=
  run (main b cycles) (start b).

(** ** Views of a run *)

Definition before_signal : list call :=
  [ gpiod_line_settings_new;
    gpiod_line_settings_set_direction GPIOD_LINE_DIRECTION_INPUT;
    gpiod_line_settings_set_edge_detection GPIOD_LINE_EDGE_NONE;
    gpiod_line_settings_set_bias GPIOD_LINE_BIAS_PULL_UP;
    gpiod_line_settings_set_debounce_period_us debounce_us;
    gpiod_line_config_new;
    gpiod_line_config_add_line_settings offsets gpio_pin_cnt;
    gpiod_line_settings_free;
    gpiod_chip_open chip_path;
    gpiod_request_config_new;
    gpiod_request_config_set_consumer "input_events";
    gpiod_chip_request_lines;
    gpiod_request_config_free;
    gpiod_line_config_free;
    printf ("debounce time = %lu usec" ++ nl)%string [debounce_us] ].

Definition set_up_calls : list call := before_signal ++ [signal_SIGINT].

(** The calls made once the handler is installed, the tear-down apart. *)
Definition polling (c : call) : bool :=
  match c with
  | gpiod_line_request_get_values | printf _ _ | usleep _
  | ctrl_c_handler => true
  | _ => false
  end.

Definition tail : list call :=
  [gpiod_line_request_release; gpiod_chip_close].

(** The calls of [set_up] before signal(), each with its check. *)
Definition checks (b : boot) : list (call * bool) :=
  [ (gpiod_line_settings_new, negb (settings b =? nullptr));
    (gpiod_line_settings_set_direction GPIOD_LINE_DIRECTION_INPUT, true);
    (gpiod_line_settings_set_edge_detection GPIOD_LINE_EDGE_NONE, true);
    (gpiod_line_settings_set_bias GPIOD_LINE_BIAS_PULL_UP, true);
    (gpiod_line_settings_set_debounce_period_us debounce_us, true);
    (gpiod_line_config_new, negb (line_config b =? nullptr));
    (gpiod_line_config_add_line_settings offsets gpio_pin_cnt, r1 b =? 0);
    (gpiod_line_settings_free, true);
    (gpiod_chip_open chip_path, negb (chip b =? nullptr));
    (gpiod_request_config_new, negb (request_config b =? nullptr));
    (gpiod_request_config_set_consumer "input_events", true);
    (gpiod_chip_request_lines, negb (request b =? nullptr));
    (gpiod_request_config_free, true);
    (gpiod_line_config_free, true);
    (printf ("debounce time = %lu usec" ++ nl)%string [debounce_us], true) ].

(** Every call of the set-up succeeds, the first reading included, and no
    SIGINT arrives before the handler is installed. *)
Definition boots (b : boot) : bool :=
  forallb snd (checks b) && (r2 b =? 0) &&
  match sigint_after b with None => true | Some _ => false end.

(** The state in which the loop is entered after such a set-up. *)
Definition ready : proc :=
  mkProc false SIG_ctrl_c_handler None
         (set_up_calls ++ [gpiod_line_request_get_values]).

(** An iteration whose reading succeeds, with no SIGINT. *)
Definition steady (c : cycle) : bool :=
  negb (sigint_at_test c) && (r3 c =? 0).

Definition change_calls (offset : Z) (old new : gpiod_line_value) : list call :=
  if line_value_eqb old new then []
  else [printf ("pin %u = %d" ++ nl)%string
          [offset; match new with GPIOD_LINE_VALUE_ACTIVE => 1 | _ => 0 end]].

Definition poll_calls (old new : gpiod_line_value * gpiod_line_value)
  : list call :=
  gpiod_line_request_get_values
    :: change_calls a_gpio_num (fst old) (fst new)
    ++ change_calls b_gpio_num (snd old) (snd new)
    ++ [usleep 1000].

Fixpoint session_calls (old : gpiod_line_value * gpiod_line_value)
         (cycles : list cycle) : list call :=
  match cycles with
  | [] => []
  | c :: later =>
      poll_calls old (values_new c) ++ session_calls (values_new c) later
  end.

Definition banner : string :=
  render false ("debounce time = %lu usec" ++ nl)%string [debounce_us].

(** The line printed for a pin whose value went from [old] to [new]. *)
Definition pin_text (offset : Z) (old new : gpiod_line_value) : string :=
  if line_value_eqb old new then EmptyString
  else ("pin " ++ dec offset ++ " = "
          ++ match new with GPIOD_LINE_VALUE_ACTIVE => "1" | _ => "0" end
          ++ nl)%string.

(** What a sequence of readings prints, each compared with the reading
    before it. *)
Fixpoint changes_text (old : gpiod_line_value * gpiod_line_value)
         (readings : list (gpiod_line_value * gpiod_line_value)) : string :=
  match readings with
  | [] => EmptyString
  | new :: later =>
      (pin_text a_gpio_num (fst old) (fst new)
         ++ pin_text b_gpio_num (snd old) (snd new)
         ++ changes_text new later)%string
  end.

End InputSimple.

(* ================================================================== *)
(** * output_simple.cpp *)
(* ================================================================== *)

Module OutputSimple.

Definition chip_path : string := "/dev/gpiochip0".
Definition lsb_gpio_num : Z := 23.
Definition msb_gpio_num : Z := 24.
Definition gpio_pin_cnt : Z := 2.

Record boot := mkBoot {
  sigint_ignored : bool;
  sigint_after : option nat;
  line_config : Z;
  settings : Z;
  r1 : Z;
  r2 : Z;
  chip : Z;
  request_config : Z;
  request : Z
}.

Record cycle := mkCycle { sigint_at_test : bool }.

Definition offsets : list Z := [lsb_gpio_num; msb_gpio_num].

Definition init_values : list gpiod_line_value :=
  [GPIOD_LINE_VALUE_ACTIVE; GPIOD_LINE_VALUE_INACTIVE].

Definition code_max : Z := 4.

Definition code_values : list (list gpiod_line_value) :=
  [ [GPIOD_LINE_VALUE_INACTIVE; GPIOD_LINE_VALUE_INACTIVE];
    [GPIOD_LINE_VALUE_ACTIVE; GPIOD_LINE_VALUE_INACTIVE];
    [GPIOD_LINE_VALUE_INACTIVE; GPIOD_LINE_VALUE_ACTIVE];
    [GPIOD_LINE_VALUE_ACTIVE; GPIOD_LINE_VALUE_ACTIVE] ].

(** Body of the while loop, lines 157-168 of the listing. *)
Definition toggle (c : cycle) (code : Z) : M (option Z) :=
  invoke (sleep 1) ;;
  invoke (gpiod_line_request_set_values (nth (Z.to_nat code) code_values [])) ;;
  ret (Some (if code + 1 >=? code_max then 0 else code + 1)).

Definition set_up (b : boot) : M unit :=
  startup gpiod_line_config_new ;;
  assert (negb (line_config b =? nullptr)) ;;
  startup gpiod_line_settings_new ;;
  assert (negb (settings b =? nullptr)) ;;
  startup (gpiod_line_settings_set_direction GPIOD_LINE_DIRECTION_OUTPUT) ;;
  startup (gpiod_line_settings_set_drive GPIOD_LINE_DRIVE_PUSH_PULL) ;;
  startup (gpiod_line_config_add_line_settings offsets gpio_pin_cnt) ;;
  assert (r1 b =? 0) ;;
  startup gpiod_line_settings_free ;;
  startup (gpiod_line_config_set_output_values init_values gpio_pin_cnt) ;;
  assert (r2 b =? 0) ;;
  startup (gpiod_chip_open chip_path) ;;
  assert (negb (chip b =? nullptr)) ;;
  startup gpiod_request_config_new ;;
  assert (negb (request_config b =? nullptr)) ;;
  startup (gpiod_request_config_set_consumer "output_simple") ;;
  startup gpiod_chip_request_lines ;;
  assert (negb (request b =? nullptr)) ;;
  startup gpiod_request_config_free ;;
  startup gpiod_line_config_free ;;
  install_handler.

Definition tear_down : M Z :=
  invoke (gpiod_line_request_set_values (nth 0 code_values [])) ;;
  invoke gpiod_line_request_release ;;
  invoke gpiod_chip_close ;;
  ret 0.

Definition main (b : boot) (cycles : list cycle) : M Z :=
  set_up b ;;
  _ <- while_not_quitting sigint_at_test toggle cycles 0 ;;   (* code = 0 *)
  tear_down.

Definition start (b : boot) : proc := fresh (sigint_ignored b) (sigint_after b).

Definition exec (b : boot) (cycles : list cycle) : outcome * proc :=
  run (main b cycles) (start b).

(** ** Views of a run *)

Definition before_signal : list call :=
  [ gpiod_line_config_new;
    gpiod_line_settings_new;
    gpiod_line_settings_set_direction GPIOD_LINE_DIRECTION_OUTPUT;
    gpiod_line_settings_set_drive GPIOD_LINE_DRIVE_PUSH_PULL;
    gpiod_line_config_add_line_settings offsets gpio_pin_cnt;
    gpiod_line_settings_free;
    gpiod_line_config_set_output_values init_values gpio_pin_cnt;
    gpiod_chip_open chip_path;
    gpiod_request_config_new;
    gpiod_request_config_set_consumer "output_simple";
    gpiod_chip_request_lines;
    gpiod_request_config_free;
    gpiod_line_config_free ].

Definition set_up_calls : list call := before_signal ++ [signal_SIGINT].

(** The calls of the loop. *)
Definition toggling (c : call) : bool :=
  match c with
  | sleep _ | gpiod_line_request_set_values _ | ctrl_c_handler => true
  | _ => false
  end.

Definition tail : list call :=
  [gpiod_line_request_set_values (nth 0 code_values []);
   gpiod_line_request_release; gpiod_chip_close].

(** The calls of [set_up] before signal(), each with its check. *)
Definition checks (b : boot) : list (call * bool) :=
  [ (gpiod_line_config_new, negb (line_config b =? nullptr));
    (gpiod_line_settings_new, negb (settings b =? nullptr));
    (gpiod_line_settings_set_direction GPIOD_LINE_DIRECTION_OUTPUT, true);
    (gpiod_line_settings_set_drive GPIOD_LINE_DRIVE_PUSH_PULL, true);
    (gpiod_line_config_add_line_settings offsets gpio_pin_cnt, r1 b =? 0);
    (gpiod_line_settings_free, true);
    (gpiod_line_config_set_output_values init_values gpio_pin_cnt, r2 b =? 0);
    (gpiod_chip_open chip_path, negb (chip b =? nullptr));
    (gpiod_request_config_new, negb (request_config b =? nullptr));
    (gpiod_request_config_set_consumer "output_simple", true);
    (gpiod_chip_request_lines, negb (request b =? nullptr));
    (gpiod_request_config_free, true);
    (gpiod_line_config_free, true) ].

Definition boots (b : boot) : bool :=
  forallb snd (checks b) &&
  match sigint_after b with None => true | Some _ => false end.

Definition ready : proc := mkProc false SIG_ctrl_c_handler None set_up_calls.

(** The value of a line for a bit. *)
Definition bit_value (bit : bool) : gpiod_line_value :=
  if bit then GPIOD_LINE_VALUE_ACTIVE else GPIOD_LINE_VALUE_INACTIVE.

(** The values written with gpiod_line_request_set_values, in order. *)
Fixpoint written (tr : list call) : list (list gpiod_line_value) :=
  match tr with
  | [] => []
  | gpiod_line_request_set_values values :: rest => values :: written rest
  | _ :: rest => written rest
  end.

(** The calls of [n] iterations of the loop, the first being the [i]-th. *)
Fixpoint count_calls (i n : nat) : list call :=
  match n with
  | O => []
  | S n' =>
      sleep 1
        :: gpiod_line_request_set_values (nth (i mod 4) code_values [])
        :: count_calls (S i) n'
  end.

End OutputSimple.

(* ================================================================== *)
(** * output1_simple.cpp *)
(* ================================================================== *)

Module Output1Simple.

Definition chip_path : string := "/dev/gpiochip0".
Definition gpio_num : Z := 23.

Record boot := mkBoot {
  sigint_ignored : bool;
  sigint_after : option nat;
  line_config : Z;
  settings : Z;
  r1 : Z;
  r2 : Z;
  chip : Z;
  request_config : Z;
  request : Z
}.

Record cycle := mkCycle { sigint_at_test : bool }.

Definition init_value : gpiod_line_value := GPIOD_LINE_VALUE_INACTIVE.

Definition code_values : list gpiod_line_value :=
  [GPIOD_LINE_VALUE_INACTIVE; GPIOD_LINE_VALUE_ACTIVE].

(** Body of the while loop, lines 128-138. *)
Definition toggle (c : cycle) (code : Z) : M (option Z) :=
  invoke (sleep 1) ;;
  invoke (gpiod_line_request_set_value gpio_num
            (nth (Z.to_nat code) code_values GPIOD_LINE_VALUE_ERROR)) ;;
  ret (Some (1 - code)).

(** Lines 34-126.  The chip is closed at line 116, once the lines are
    requested. *)
Definition set_up (b : boot) : M unit :=
  startup gpiod_line_config_new ;;
  assert (negb (line_config b =? nullptr)) ;;
  startup gpiod_line_settings_new ;;
  assert (negb (settings b =? nullptr)) ;;
  startup (gpiod_line_settings_set_direction GPIOD_LINE_DIRECTION_OUTPUT) ;;
  startup (gpiod_line_settings_set_drive GPIOD_LINE_DRIVE_PUSH_PULL) ;;
  startup (gpiod_line_config_add_line_settings [gpio_num] 1) ;;
  assert (r1 b =? 0) ;;
  startup gpiod_line_settings_free ;;
  startup (gpiod_line_config_set_output_values [init_value] 1) ;;
  assert (r2 b =? 0) ;;
  startup (gpiod_chip_open chip_path) ;;
  assert (negb (chip b =? nullptr)) ;;
  startup gpiod_request_config_new ;;
  assert (negb (request_config b =? nullptr)) ;;
  startup (gpiod_request_config_set_consumer "output1_simple") ;;
  startup gpiod_chip_request_lines ;;
  assert (negb (request b =? nullptr)) ;;
  startup gpiod_request_config_free ;;
  startup gpiod_line_config_free ;;
  startup gpiod_chip_close ;;
  install_handler.

(** Lines 140-148. *)
Definition tear_down : M Z :=
  invoke (gpiod_line_request_set_value gpio_num
            (nth 0 code_values GPIOD_LINE_VALUE_ERROR)) ;;
  invoke gpiod_line_request_release ;;
  ret 0.

Definition main (b : boot) (cycles : list cycle) : M Z :=
  set_up b ;;
  _ <- while_not_quitting sigint_at_test toggle cycles 0 ;;   (* code = 0 *)
  tear_down.

Definition start (b : boot) : proc := fresh (sigint_ignored b) (sigint_after b).

Definition exec (b : boot) (cycles : list cycle) : outcome * proc :=
  run (main b cycles) (start b).

(** ** Views of a run *)

Definition before_signal : list call :=
  [ gpiod_line_config_new;
    gpiod_line_settings_new;
    gpiod_line_settings_set_direction GPIOD_LINE_DIRECTION_OUTPUT;
    gpiod_line_settings_set_drive GPIOD_LINE_DRIVE_PUSH_PULL;
    gpiod_line_config_add_line_settings [gpio_num] 1;
    gpiod_line_settings_free;
    gpiod_line_config_set_output_values [init_value] 1;
    gpiod_chip_open chip_path;
    gpiod_request_config_new;
    gpiod_request_config_set_consumer "output1_simple";
    gpiod_chip_request_lines;
    gpiod_request_config_free;
    gpiod_line_config_free;
    gpiod_chip_close ].

Definition set_up_calls : list call := before_signal ++ [signal_SIGINT].

(** The calls of the loop. *)
Definition toggling (c : call) : bool :=
  match c with
  | sleep _ | gpiod_line_request_set_value _ _ | ctrl_c_handler => true
  | _ => false
  end.

Definition tail : list call :=
  [gpiod_line_request_set_value gpio_num
     (nth 0 code_values GPIOD_LINE_VALUE_ERROR);
   gpiod_line_request_release].

(** The calls of [set_up] before signal(), each with its check. *)
Definition checks (b : boot) : list (call * bool) :=
  [ (gpiod_line_config_new, negb (line_config b =? nullptr));
    (gpiod_line_settings_new, negb (settings b =? nullptr));
    (gpiod_line_settings_set_direction GPIOD_LINE_DIRECTION_OUTPUT, true);
    (gpiod_line_settings_set_drive GPIOD_LINE_DRIVE_PUSH_PULL, true);
    (gpiod_line_config_add_line_settings [gpio_num] 1, r1 b =? 0);
    (gpiod_line_settings_free, true);
    (gpiod_line_config_set_output_values [init_value] 1, r2 b =? 0);
    (gpiod_chip_open chip_path, negb (chip b =? nullptr));
    (gpiod_request_config_new, negb (request_config b =? nullptr));
    (gpiod_request_config_set_consumer "output1_simple", true);
    (gpiod_chip_request_lines, negb (request b =? nullptr));
    (gpiod_request_config_free, true);
    (gpiod_line_config_free, true);
    (gpiod_chip_close, true) ].

Definition boots (b : boot) : bool :=
  forallb snd (checks b) &&
  match sigint_after b with None => true | Some _ => false end.

Definition ready : proc := mkProc false SIG_ctrl_c_handler None set_up_calls.

(** The values written with gpiod_line_request_set_value, in order. *)
Fixpoint written (tr : list call) : list (Z * gpiod_line_value) :=
  match tr with
  | [] => []
  | gpiod_line_request_set_value offset value :: rest =>
      (offset, value) :: written rest
  | _ :: rest => written rest
  end.

(** The calls of [n] iterations of the loop, the first being the [i]-th. *)
Fixpoint toggle_calls (i n : nat) : list call :=
  match n with
  | O => []
  | S n' =>
      sleep 1
        :: gpiod_line_request_set_value gpio_num
             (nth (i mod 2) code_values GPIOD_LINE_VALUE_ERROR)
        :: toggle_calls (S i) n'
  end.

End Output1Simple.


(* ================================================================== *)
(** * Concrete environments *)
(* ================================================================== *)

Module Scenario.
Import InputEvents.

(** A set-up in which every call succeeds and no SIGINT arrives. *)
Definition plain_boot : boot := mkBoot false None 1 2 3 0 4 5 6.

(** The same, with a SIGINT arriving after five calls. *)
Definition early_sigint_boot : boot := mkBoot false (Some 5%nat) 1 2 3 0 4 5 6.

Definition rising_23 : gpiod_edge_event :=
  mkEvent 1 1 23 GPIOD_EDGE_EVENT_RISING_EDGE 1000.
Definition falling_24 : gpiod_edge_event :=
  mkEvent 2 1 24 GPIOD_EDGE_EVENT_FALLING_EDGE 1500.
Definition falling_23 : gpiod_edge_event :=
  mkEvent 3 2 23 GPIOD_EDGE_EVENT_FALLING_EDGE 2500.

(** Scenario B of the specification: two events in one batch. *)
Definition two_events : cycle :=
  mkCycle false 1 0 false 2 [rising_23; falling_24].

Definition one_more : cycle := mkCycle false 1 0 false 1 [falling_23].

(** Ctrl-C while the wait blocks. *)
Definition ctrl_c_in_wait : cycle := mkCycle false (-1) EINTR true 0 [].



(** An event stamped 0 followed by another one. *)
Definition stamped_0 : gpiod_edge_event :=
  mkEvent 2 1 24 GPIOD_EDGE_EVENT_FALLING_EDGE 0.
Definition stamped_7 : gpiod_edge_event :=
  mkEvent 3 2 23 GPIOD_EDGE_EVENT_FALLING_EDGE 7.
Definition zero_stamp : cycle :=
  mkCycle false 1 0 false 3 [rising_23; stamped_0; stamped_7].

(** A timestamp that goes back. *)
Definition stamped_400 : gpiod_edge_event :=
  mkEvent 2 1 24 GPIOD_EDGE_EVENT_FALLING_EDGE 400.
Definition goes_back : cycle :=
  mkCycle false 1 0 false 2 [rising_23; stamped_400].

(** output1_simple: two toggles, then Ctrl-C. *)
Definition output1_boot : Output1Simple.boot :=
  Output1Simple.mkBoot false None 1 2 0 0 3 4 5.
Definition output1_cycles : list Output1Simple.cycle :=
  [Output1Simple.mkCycle false; Output1Simple.mkCycle false;
   Output1Simple.mkCycle true].
(** The chip cannot be opened. *)
Definition no_chip_boot : boot := mkBoot false None 1 2 3 0 0 5 6.

(** The wait is interrupted by something else than Ctrl-C. *)
Definition eintr_only : cycle := mkCycle false (-1) EINTR false 0 [].

(** Ctrl-C arrives during a wait that still reports an event. *)
Definition ctrl_c_with_event : cycle :=
  mkCycle false 1 0 true 1 [falling_23].

(** The read fails. *)
Definition read_fails : cycle := mkCycle false 1 0 false (-1) [].

End Scenario.

(* ================================================================== *)
(** * Facts about traces *)
(* ================================================================== *)

Lemma quiet_nil : quiet [].
Proof. reflexivity. Qed.

Lemma quiet_app (tr tr' : list call) : quiet tr -> quiet tr' -> quiet (tr ++ tr').
Proof.
  unfold quiet; intros H H'. rewrite forallb_app, H, H'. reflexivity.
Qed.

Lemma quiet_app_inv (tr tr' : list call) : quiet (tr ++ tr') -> quiet tr /\ quiet tr'.
Proof.
  unfold quiet; rewrite forallb_app; intros H.
  apply andb_prop in H. exact H.
Qed.

Lemma quiet_count (tr : list call) :
  quiet tr -> count is_release tr = 0%nat /\ count is_close tr = 0%nat.
Proof.
  unfold quiet, count. induction tr as [|c tr IH]; simpl; intros H.
  - split; reflexivity.
  - apply andb_prop in H. destruct H as [Hc Htr].
    apply andb_prop in Hc. destruct Hc as [Hr Hc].
    destruct (IH Htr) as [IHr IHc].
    rewrite negb_true_iff in Hr, Hc. rewrite Hr, Hc. split; assumption.
Qed.

Lemma quiet_not_held (tr : list call) (held : bool) :
  quiet tr -> closes_while_held held tr = false.
Proof.
  unfold quiet. revert held.
  induction tr as [|c tr IH]; simpl; intros held H; [reflexivity|].
  apply andb_prop in H. destruct H as [Hc Htr].
  destruct c; simpl in Hc; try discriminate; apply IH; assumption.
Qed.

Lemma forallb_weaken (g h : call -> bool) (tr : list call) :
  (forall c, g c = true -> h c = true) ->
  forallb g tr = true -> forallb h tr = true.
Proof.
  intros Hgh. induction tr as [|c tr IH]; simpl; [reflexivity|].
  intros H. apply andb_prop in H. destruct H as [Hc Htr].
  rewrite (Hgh c Hc), (IH Htr). reflexivity.
Qed.

Lemma forallb_count (f : call -> bool) (tr : list call) :
  forallb (fun c => negb (f c)) tr = true -> count f tr = 0%nat.
Proof.
  unfold count. induction tr as [|c tr IH]; simpl; [reflexivity|].
  intros H. apply andb_prop in H. destruct H as [Hc Htr].
  destruct (f c); [discriminate | exact (IH Htr)].
Qed.

Lemma quiet_firstn (n : nat) (tr : list call) : quiet tr -> quiet (firstn n tr).
Proof.
  intros H. rewrite <- (firstn_skipn n tr) in H.
  apply quiet_app_inv in H. tauto.
Qed.

Lemma count_firstn (f : call -> bool) (n : nat) (tr : list call) :
  (count f (firstn n tr) <= count f tr)%nat.
Proof.
  rewrite <- (firstn_skipn n tr) at 2. unfold count.
  rewrite filter_app, length_app. lia.
Qed.

Lemma quiet_then_teardown (pre : list call) (held : bool) :
  quiet pre ->
  closes_while_held held
    (pre ++ [gpiod_line_request_release; gpiod_chip_close]) = false.
Proof.
  unfold quiet. revert held.
  induction pre as [|c pre IH]; simpl; intros held H; [reflexivity|].
  apply andb_prop in H. destruct H as [Hc Hpre].
  destruct c; simpl in Hc; try discriminate; apply IH; assumption.
Qed.

Lemma count_app (f : call -> bool) (tr tr' : list call) :
  count f (tr ++ tr') = (count f tr + count f tr')%nat.
Proof. unfold count. rewrite filter_app, length_app. reflexivity. Qed.

Lemma string_app_assoc (s t u : string) :
  ((s ++ t) ++ u = s ++ (t ++ u))%string.
Proof. induction s as [|ch s IH]; simpl; [reflexivity | rewrite IH; reflexivity]. Qed.

Lemma string_app_nil_r (s : string) : (s ++ "" = s)%string.
Proof. induction s as [|ch s IH]; simpl; [reflexivity | rewrite IH; reflexivity]. Qed.

Lemma stdout_app (tr tr' : list call) :
  stdout (tr ++ tr') = (stdout tr ++ stdout tr')%string.
Proof.
  induction tr as [|c tr IH]; simpl; [reflexivity|].
  destruct c; try exact IH.
  rewrite IH. symmetry. apply string_app_assoc.
Qed.

Lemma firstn_snoc {A} (l : list A) (n : nat) (x : A) :
  nth_error l n = Some x -> firstn (S n) l = firstn n l ++ [x].
Proof.
  revert n. induction l as [|y l IH]; intros [|n] H; simpl in *; try discriminate.
  - injection H as ->. reflexivity.
  - rewrite <- (IH n H). reflexivity.
Qed.

Lemma nth_error_length {A} (l : list A) (n : nat) (x : A) :
  nth_error l n = Some x -> (n < List.length l)%nat.
Proof. intros H. apply nth_error_Some. rewrite H. discriminate. Qed.

Lemma extend_extend (p : proc) (tr tr' : list call) :
  extend (extend p tr) tr' = extend p (tr ++ tr').
Proof. unfold extend; simpl. rewrite app_assoc. reflexivity. Qed.

Lemma extend_nil (p : proc) : extend p [] = p.
Proof. destruct p; unfold extend; simpl. rewrite app_nil_r. reflexivity. Qed.

(* ================================================================== *)
(** * Rules for triples *)
(* ================================================================== *)

Section Rules.
Variables A B : Type.

Lemma triple_ret (P : proc -> Prop) (a : A) (Q : A -> proc -> Prop) E :
  (forall p, P p -> Q a p) -> triple P (ret a) Q E.
Proof. intros H p Hp. simpl. auto. Qed.

Lemma triple_bind (P : proc -> Prop) (m : M A) (k : A -> M B)
      (Q : A -> proc -> Prop) (R : B -> proc -> Prop) E :
  triple P m Q E -> (forall a, triple (Q a) (k a) R E) ->
  triple P (bind m k) R E.
Proof.
  intros Hm Hk p Hp. unfold bind. specialize (Hm p Hp).
  destruct (m p) as [a p'|o p']; [exact (Hk a p' Hm) | exact Hm].
Qed.

Lemma triple_weaken (P P' : proc -> Prop) (m : M A)
      (Q Q' : A -> proc -> Prop) (E E' : outcome -> proc -> Prop) :
  triple P m Q E ->
  (forall p, P' p -> P p) -> (forall a p, Q a p -> Q' a p) ->
  (forall o p, E o p -> E' o p) ->
  triple P' m Q' E'.
Proof.
  intros H HP HQ HE p Hp. specialize (H p (HP p Hp)).
  destruct (m p); auto.
Qed.

Lemma triple_halt (P : proc -> Prop) (o : outcome) (Q : A -> proc -> Prop) E :
  (forall p, P p -> E o p) -> triple P (halt o) Q E.
Proof. intros H p Hp. simpl. auto. Qed.
End Rules.

Lemma triple_assert (P : proc -> Prop) (cond : bool) (Q : unit -> proc -> Prop) E :
  (forall p, P p -> cond = true -> Q tt p) ->
  (forall p, P p -> cond = false -> E Aborted p) ->
  triple P (assert cond) Q E.
Proof. intros HQ HE p Hp. destruct cond; simpl; auto. Qed.

Lemma triple_invoke (P : proc -> Prop) (c : call) (Q : unit -> proc -> Prop) E :
  (forall p, P p -> Q tt (log c p)) -> triple P (invoke c) Q E.
Proof. intros H p Hp. simpl. auto. Qed.

(** A SIGINT that finds the handler installed. *)
Lemma triple_deliver (P : proc -> Prop) (arrives : bool) (Q : unit -> proc -> Prop) E :
  (forall p, P p -> sigint_action p = SIG_ctrl_c_handler) ->
  (forall p, P p -> Q tt p) ->
  (forall p, P p -> Q tt (run_ctrl_c_handler p)) ->
  triple P (deliver arrives) Q E.
Proof.
  intros Hh Hq Hr p Hp. unfold deliver.
  destruct arrives; [rewrite (Hh p Hp)|]; auto.
Qed.

Section WhileRule.
Variables C S : Type.
Variable arrival : C -> bool.
Variable body : C -> S -> M (option S).
Variable I : proc -> Prop.
Variable E : outcome -> proc -> Prop.
Hypothesis handled : forall p, I p -> sigint_action p = SIG_ctrl_c_handler.
Hypothesis caught : forall p, I p -> I (run_ctrl_c_handler p).
Hypothesis waiting : forall p, I p -> E Running p.
Hypothesis body_keeps : forall c s, triple I (body c s) (fun _ => I) E.

Lemma triple_while (cycles : list C) :
  forall s, triple I (while_not_quitting arrival body cycles s) (fun _ => I) E.
Proof.
  induction cycles as [|c rest IH]; intros s; simpl.
  - intros p Hp. unfold bind, get_quitting.
    destruct (quitting p); simpl; auto.
  - eapply triple_bind.
    + apply triple_deliver with (Q := fun _ => I); auto.
    + intros _ p Hp. unfold bind at 1, get_quitting.
      destruct (quitting p); simpl; [assumption|].
      revert p Hp. change (triple I
        (r <- body c s ;;
         match r with
         | Some s' => while_not_quitting arrival body rest s'
         | None => ret s
         end) (fun _ => I) E).
      eapply triple_bind; [apply body_keeps|].
      intros [s'|]; [apply IH | apply triple_ret; auto].
Qed.
End WhileRule.

(** ** Set-up *)

Section SetUp.
Variable ignored : bool.
Variable due : option nat.
Variable calls : list call.
Variable E : outcome -> proc -> Prop.
Hypothesis early : forall o p, stopped_early ignored due calls o p -> E o p.

Lemma startup_setting_up (n : nat) (c : call) :
  nth_error calls n = Some c ->
  triple (setting_up ignored due calls n) (startup c)
         (fun _ => setting_up ignored due calls (S n)) E.
Proof.
  intros Hn.
  pose proof (nth_error_length _ _ Hn) as Hlt.
  assert (Hlen : List.length (firstn n calls) = n)
    by (rewrite length_firstn; lia).
  intros p [-> Hdue].
  unfold setting_up.
  rewrite (firstn_snoc _ _ Hn).
  unfold startup, bind, deliver, due_now, invoke, log; simpl.
  rewrite Hlen.
  destruct due as [k|] eqn:Ek.
  - destruct (Nat.eqb_spec k n) as [->|Hne].
    + destruct ignored eqn:Ei.
      * split; [reflexivity | discriminate].
      * apply early.
        split; [right; reflexivity | exists n; split; [assumption|reflexivity]].
    + split; [reflexivity|].
      intros Hi k' Hk'. injection Hk' as <-.
      specialize (Hdue Hi k eq_refl). lia.
  - split; [reflexivity | discriminate].
Qed.

Lemma assert_setting_up (n : nat) (cond : bool) :
  (n < List.length calls)%nat ->
  triple (setting_up ignored due calls n) (assert cond)
         (fun _ => setting_up ignored due calls n) E.
Proof.
  intros Hlt. apply triple_assert; [auto|].
  intros p [-> _] _. apply early. split; [left; reflexivity|].
  exists n. split; [assumption|reflexivity].
Qed.

Lemma install_setting_up (n : nat) :
  nth_error calls n = Some signal_SIGINT ->
  triple (setting_up ignored due calls n) install_handler
         (fun _ p =>
            p = mkProc false SIG_ctrl_c_handler due (firstn (S n) calls) /\
            (ignored = false -> forall k, due = Some k -> (S n <= k)%nat))
         E.
Proof.
  intros Hn.
  pose proof (nth_error_length _ _ Hn) as Hlt.
  assert (Hlen : List.length (firstn n calls) = n)
    by (rewrite length_firstn; lia).
  intros p [-> Hdue].
  rewrite (firstn_snoc _ _ Hn).
  unfold install_handler, bind, deliver, due_now, signal; simpl.
  rewrite Hlen.
  destruct due as [k|] eqn:Ek.
  - destruct (Nat.eqb_spec k n) as [->|Hne].
    + destruct ignored eqn:Ei.
      * split; [reflexivity | discriminate].
      * apply early.
        split; [right; reflexivity | exists n; split; [assumption|reflexivity]].
    + split; [reflexivity|].
      intros Hi k' Hk'. injection Hk' as <-.
      specialize (Hdue Hi k eq_refl). lia.
  - split; [reflexivity | discriminate].
Qed.
End SetUp.

Lemma setting_up_start (ignored : bool) (due : option nat) (calls : list call) :
  setting_up ignored due calls 0 (fresh ignored due).
Proof. split; [reflexivity | intros; lia]. Qed.

(** ** The loop and what follows *)

Section Looping.
Variable g : call -> bool.
Variable base : list call.
Variable fact : Prop.

Lemma looping_extend (p : proc) (calls : list call) :
  looping g base fact p -> forallb g calls = true ->
  looping g base fact (extend p calls).
Proof.
  intros (Hf & Ha & ext & Ht & Hg) Hc.
  split; [assumption|]. split; [assumption|].
  exists (ext ++ calls). cbn [extend trace].
  rewrite Ht, app_assoc, forallb_app, Hg, Hc. split; reflexivity.
Qed.

Lemma looping_invoke (c : call) E :
  g c = true ->
  triple (looping g base fact) (invoke c) (fun _ => looping g base fact) E.
Proof.
  intros Hc. apply triple_invoke. intros p Hp.
  apply (looping_extend [c] Hp). simpl. rewrite Hc. reflexivity.
Qed.

Lemma looping_assert (cond : bool) :
  triple (looping g base fact) (assert cond)
         (fun _ => looping g base fact) (halted g base fact).
Proof.
  apply triple_assert; [auto|].
  intros p Hp _. split; [left; reflexivity | assumption].
Qed.

Lemma looping_caught (p : proc) :
  g ctrl_c_handler = true ->
  looping g base fact p -> looping g base fact (run_ctrl_c_handler p).
Proof.
  intros Hh (Hf & Ha & ext & Ht & Hg).
  split; [assumption|]. split; [assumption|].
  exists (ext ++ [ctrl_c_handler]). cbn [run_ctrl_c_handler trace].
  rewrite Ht, app_assoc, forallb_app, Hg. simpl. rewrite Hh.
  split; reflexivity.
Qed.

Lemma looping_deliver (arrives : bool) E :
  g ctrl_c_handler = true ->
  triple (looping g base fact) (deliver arrives)
         (fun _ => looping g base fact) E.
Proof.
  intros Hh. apply triple_deliver.
  - intros p (_ & Ha & _). exact Ha.
  - auto.
  - intros p Hp. apply looping_caught; assumption.
Qed.

Lemma looping_while (C S : Type) (arrival : C -> bool)
      (body : C -> S -> M (option S)) :
  g ctrl_c_handler = true ->
  (forall c s, triple (looping g base fact) (body c s)
                      (fun _ => looping g base fact) (halted g base fact)) ->
  forall cycles s,
    triple (looping g base fact)
           (while_not_quitting arrival body cycles s)
           (fun _ => looping g base fact) (halted g base fact).
Proof.
  intros Hh Hbody. apply triple_while.
  - intros p (_ & Ha & _). exact Ha.
  - intros p Hp. apply looping_caught; assumption.
  - intros p Hp. split; [right; reflexivity | assumption].
  - exact Hbody.
Qed.
End Looping.

(** Equal traces up to the bracketing of appends. *)
Ltac same_calls :=
  repeat first [ rewrite <- app_assoc | progress simpl ]; reflexivity.

(** Equal processes up to the bracketing of appends in the trace. *)
Ltac same_proc :=
  unfold log, run_ctrl_c_handler, extend;
  cbn [quitting sigint_action sigint_due trace];
  rewrite <- ?app_assoc; reflexivity.

(** One step of a set-up: a call, an assert, or the installation of the
    handler. *)
Ltac set_up_step :=
  first
    [ eapply triple_bind;
      [ first [ eapply startup_setting_up; [assumption | reflexivity]
              | eapply assert_setting_up; [assumption | simpl; lia]
              | eapply install_setting_up; [assumption | reflexivity] ]
      | intros [] ]
    | eapply install_setting_up; [assumption | reflexivity] ].

(* ================================================================== *)
(** * input_events.cpp: how a run unfolds *)
(* ================================================================== *)

Module InputEventsFacts.
Import InputEvents.

(** ** Set-up *)

Lemma set_up_triple (b : boot) :
  triple (setting_up (sigint_ignored b) (sigint_after b) set_up_calls 0)
         (set_up b)
         (fun _ p =>
            p = mkProc false SIG_ctrl_c_handler (sigint_after b) set_up_calls /\
            (sigint_ignored b = false ->
             forall k, sigint_after b = Some k -> (18 <= k)%nat))
         (stopped_early (sigint_ignored b) (sigint_after b) set_up_calls).
Proof.
  assert (early : forall o p,
             stopped_early (sigint_ignored b) (sigint_after b) set_up_calls o p ->
             stopped_early (sigint_ignored b) (sigint_after b) set_up_calls o p)
    by auto.
  unfold set_up. repeat set_up_step.
Qed.

Lemma set_up_boots (b : boot) :
  boots b = true -> set_up b (start b) = Next tt ready.
Proof.
  destruct b as [ign aft ev se lc r c rc rq]. unfold boots; simpl.
  intros H. repeat (apply andb_prop in H; destruct H as [H ?]).
  destruct aft; [discriminate|].
  unfold set_up, start, fresh, startup, install_handler, bind; simpl.
  repeat match goal with
         | Hc : ?c = true |- context [assert ?c] => rewrite Hc; simpl
         end.
  destruct ign; reflexivity.
Qed.

(** ** One batch *)

Lemma report_event_exact (event : gpiod_edge_event) (last_ns : Z) (p : proc) :
  report_event event last_ns p
  = Next (timestamp_ns event) (extend p (event_calls last_ns event)).
Proof.
  unfold report_event, event_calls, bind, invoke, log, extend, fields, level.
  destruct (last_ns =? 0); same_calls.
Qed.

Lemma print_events_exact (later : list gpiod_edge_event) :
  forall (earlier : list gpiod_edge_event) (last_ns : Z) (p : proc),
    print_events (earlier ++ later) (List.length earlier) (List.length later)
                 last_ns p
    = Next (last_after last_ns later)
           (extend p (batch_calls (List.length earlier) last_ns later)).
Proof.
  induction later as [|event later IH]; intros earlier last_ns p; simpl.
  - rewrite extend_nil. reflexivity.
  - unfold bind at 1. simpl.
    rewrite nth_error_app2, Nat.sub_diag by lia. simpl.
    unfold bind at 1. rewrite report_event_exact.
    replace (earlier ++ event :: later) with ((earlier ++ [event]) ++ later)
      by (rewrite <- app_assoc; reflexivity).
    replace (S (List.length earlier)) with (List.length (earlier ++ [event]))
      by (rewrite length_app; simpl; lia).
    rewrite IH. f_equal.
    unfold extend, log, event_calls. same_calls.
Qed.

Lemma print_batch (batch : list gpiod_edge_event) (last_ns : Z) (p : proc) :
  print_events batch 0 (List.length batch) last_ns p
  = Next (last_after last_ns batch) (extend p (batch_calls 0 last_ns batch)).
Proof. exact (print_events_exact batch [] last_ns p). Qed.

(** ** One iteration *)

Lemma monitor_completes (c : cycle) (last_ns : Z) (p : proc) :
  completes c = true ->
  monitor c last_ns p
  = Next (Some (last_after last_ns (buffer c))) (extend p (cycle_calls last_ns c)).
Proof.
  unfold completes. intros H.
  repeat (apply andb_prop in H; destruct H as [H ?]).
  destruct (sigint_in_wait c) eqn:Ew; [discriminate|].
  assert (Er : r2 c = 1) by (apply Z.eqb_eq; assumption).
  unfold monitor, bind, invoke, deliver. rewrite Ew, Er. simpl.
  match goal with Hn : (num_events c >? 0) = true |- _ => rewrite Hn end.
  simpl. rewrite print_batch.
  unfold cycle_calls, extend, log. same_calls.
Qed.

Lemma monitor_interrupted (c : cycle) (last_ns : Z) (p : proc) :
  interrupted c = true ->
  sigint_action p = SIG_ctrl_c_handler ->
  monitor c last_ns p
  = Next None
      (if sigint_in_wait c
       then run_ctrl_c_handler (log (gpiod_line_request_wait_edge_events (-1)) p)
       else log (gpiod_line_request_wait_edge_events (-1)) p).
Proof.
  unfold interrupted. intros H Hp.
  repeat (apply andb_prop in H; destruct H as [H ?]).
  unfold monitor, bind, invoke, deliver; simpl. rewrite Hp.
  match goal with Hn : (r2 c <? 0) = true |- _ => rewrite Hn end.
  match goal with Hn : (errno c =? EINTR) = true |- _ => rewrite Hn end.
  destruct (sigint_in_wait c); reflexivity.
Qed.

(** ** Iterations that complete *)

Lemma while_completes (cycles : list cycle) :
  forall (rest : list cycle) (last_ns : Z) (p : proc),
    forallb completes cycles = true ->
    quitting p = false ->
    while_not_quitting sigint_at_test monitor (cycles ++ rest) last_ns p
    = while_not_quitting sigint_at_test monitor rest
        (session_last last_ns cycles) (extend p (session_calls last_ns cycles)).
Proof.
  induction cycles as [|c cycles IH]; intros rest last_ns p Hall Hq; simpl.
  - rewrite extend_nil. reflexivity.
  - simpl in Hall. apply andb_prop in Hall. destruct Hall as [Hc Hall].
    assert (Ht : sigint_at_test c = false).
    { unfold completes in Hc.
      destruct (sigint_at_test c); [discriminate | reflexivity]. }
    unfold bind at 1, deliver. rewrite Ht.
    unfold bind at 1, get_quitting. rewrite Hq.
    unfold bind at 1. rewrite (monitor_completes _ _ _ Hc).
    rewrite IH by assumption.
    rewrite extend_extend. reflexivity.
Qed.

(** ** Whole runs *)

Local Arguments set_up_calls : simpl never.

Lemma main_session (b : boot) (cycles rest : list cycle) :
  boots b = true -> forallb completes cycles = true ->
  main b (cycles ++ rest) (start b)
  = (_ <- while_not_quitting sigint_at_test monitor rest
            (session_last 0 cycles) ;;
     tear_down)
      (extend ready (session_calls 0 cycles)).
Proof.
  intros Hb Hc. unfold main. unfold bind at 1.
  rewrite (set_up_boots _ Hb). unfold bind at 1.
  rewrite while_completes by (assumption || reflexivity).
  reflexivity.
Qed.

(** With no further event the process stays in the wait. *)
Lemma exec_running (b : boot) (cycles : list cycle) :
  boots b = true -> forallb completes cycles = true ->
  exec b cycles = (Running, extend ready (session_calls 0 cycles)).
Proof.
  intros Hb Hc. unfold exec, run.
  rewrite <- (app_nil_r cycles) at 1.
  rewrite (main_session _ _ [] Hb Hc). reflexivity.
Qed.

(** The loop left through [break]. *)
Lemma exec_interrupted (b : boot) (cycles : list cycle) (c : cycle)
      (rest : list cycle) :
  boots b = true -> forallb completes cycles = true ->
  interrupted c = true ->
  exec b (cycles ++ c :: rest)
  = (Returned 0,
     mkProc (sigint_in_wait c) SIG_ctrl_c_handler None
       (set_up_calls ++ session_calls 0 cycles
          ++ gpiod_line_request_wait_edge_events (-1)
          :: (if sigint_in_wait c then [ctrl_c_handler] else [])
          ++ [gpiod_line_request_release; gpiod_chip_close])).
Proof.
  intros Hb Hc Hi. unfold exec, run.
  rewrite (main_session _ _ (c :: rest) Hb Hc).
  assert (Ht : sigint_at_test c = false).
  { unfold interrupted in Hi.
    destruct (sigint_at_test c); [discriminate | reflexivity]. }
  simpl. unfold bind at 1. unfold bind at 1. unfold deliver. rewrite Ht.
  unfold bind at 1. simpl.
  unfold bind at 1. rewrite (monitor_interrupted _ _ _ Hi) by reflexivity.
  destruct (sigint_in_wait c); simpl; unfold ready; same_proc.
Qed.


Lemma exec_fails (b : boot) (cycles : list cycle) (c : cycle)
      (rest : list cycle) :
  boots b = true -> forallb completes cycles = true ->
  fails c = true ->
  exists calls,
    exec b (cycles ++ c :: rest)
    = (Aborted, extend ready (session_calls 0 cycles ++ calls)) /\
    quiet calls /\ stdout calls = "".
Proof.
  intros Hb Hc Hf. unfold exec, run.
  rewrite (main_session _ _ (c :: rest) Hb Hc).
  unfold fails in Hf.
  repeat (apply andb_prop in Hf; destruct Hf as [Hf ?]).
  destruct (sigint_at_test c) eqn:Et; [discriminate|].
  destruct (sigint_in_wait c) eqn:Ew; [discriminate|].
  destruct ((r2 c <? 0) && (errno c =? EINTR)) eqn:Ei; [discriminate|].
  simpl. unfold bind at 1. unfold bind at 1. unfold deliver. rewrite Et.
  unfold bind at 1. simpl. unfold bind at 1.
  unfold monitor, bind, invoke, deliver. rewrite Ew, Ei.
  destruct (r2 c =? 1) eqn:Er; simpl.
  - destruct (num_events c >? 0) eqn:En; [discriminate|]. simpl.
    exists [gpiod_line_request_wait_edge_events (-1);
            gpiod_line_request_read_edge_events max_events].
    split; [|split; reflexivity]. same_proc.
  - exists [gpiod_line_request_wait_edge_events (-1)].
    split; [|split; reflexivity]. same_proc.
Qed.

(** ** What a run prints *)

Lemma stdout_event_calls (last_ns : Z) (event : gpiod_edge_event) :
  stdout (event_calls last_ns event)
  = (spec_record event
       (if (last_ns =? 0)%Z then None
        else Some (uint64_sub (timestamp_ns event) last_ns)) ++ nl)%string.
Proof.
  unfold event_calls, spec_record, fields, level.
  destruct event as [g l o ty t]; simpl.
  unfold nl.
  destruct (last_ns =? 0); destruct ty; simpl;
    repeat first [ rewrite string_app_assoc
                 | rewrite string_app_nil_r
                 | progress simpl ];
    reflexivity.
Qed.

Lemma stdout_batch_calls (batch : list gpiod_edge_event) :
  forall (i : nat) (last_ns : Z),
    stdout (batch_calls i last_ns batch ++ [printf nl []])
    = batch_text batch (deltas last_ns batch).
Proof.
  induction batch as [|event later IH]; intros i last_ns; [reflexivity|].
  cbn [batch_calls deltas batch_text].
  change (gpiod_edge_event_buffer_get_event i
            :: event_calls last_ns event
            ++ batch_calls (S i) (timestamp_ns event) later)
    with ([gpiod_edge_event_buffer_get_event i]
            ++ event_calls last_ns event
            ++ batch_calls (S i) (timestamp_ns event) later).
  rewrite <- !app_assoc.
  rewrite (stdout_app [gpiod_edge_event_buffer_get_event i]).
  rewrite (stdout_app (event_calls last_ns event)).
  rewrite IH, stdout_event_calls.
  cbn [stdout]. rewrite string_app_assoc. reflexivity.
Qed.

Lemma stdout_cycle_calls (last_ns : Z) (c : cycle) :
  stdout (cycle_calls last_ns c)
  = batch_text (buffer c) (deltas last_ns (buffer c)).
Proof. unfold cycle_calls. cbn [stdout]. apply stdout_batch_calls. Qed.

Lemma deltas_length (batch : list gpiod_edge_event) :
  forall last_ns, List.length (deltas last_ns batch) = List.length batch.
Proof.
  induction batch as [|event later IH]; intros last_ns; simpl;
    [reflexivity | rewrite IH; reflexivity].
Qed.

Lemma session_calls_snoc (cycles : list cycle) (c : cycle) :
  forall last_ns,
    session_calls last_ns (cycles ++ [c])
    = session_calls last_ns cycles
        ++ cycle_calls (session_last last_ns cycles) c.
Proof.
  induction cycles as [|c' cycles IH]; intros last_ns;
    cbn [session_calls session_last app].
  - rewrite app_nil_r. reflexivity.
  - rewrite IH, app_assoc. reflexivity.
Qed.

(** ** The records of a run *)

Lemma records_event_calls (last_ns : Z) (event : gpiod_edge_event)
      (i : nat) (tail : list call) :
  records_of (gpiod_edge_event_buffer_get_event i
                :: event_calls last_ns event ++ tail)
  = (fields event,
     if last_ns =? 0 then None
     else Some (uint64_sub (timestamp_ns event) last_ns))
      :: records_of tail.
Proof.
  unfold event_calls. destruct (last_ns =? 0); reflexivity.
Qed.

Lemma records_batch_calls (batch : list gpiod_edge_event) :
  forall (i : nat) (last_ns : Z) (tail : list call),
    records_of (batch_calls i last_ns batch ++ tail)
    = annotate last_ns batch ++ records_of tail.
Proof.
  induction batch as [|event later IH]; intros i last_ns tail; [reflexivity|].
  cbn [batch_calls annotate].
  rewrite <- app_comm_cons, <- app_assoc, records_event_calls, IH.
  reflexivity.
Qed.

Lemma records_cycle_calls (last_ns : Z) (c : cycle) (tail : list call) :
  records_of (cycle_calls last_ns c ++ tail)
  = annotate last_ns (buffer c) ++ records_of tail.
Proof.
  unfold cycle_calls. cbn [app records_of].
  rewrite <- app_assoc, records_batch_calls. reflexivity.
Qed.

Lemma annotate_app (batch : list gpiod_edge_event) :
  forall (last_ns : Z) (more : list gpiod_edge_event),
    annotate last_ns (batch ++ more)
    = annotate last_ns batch ++ annotate (last_after last_ns batch) more.
Proof.
  induction batch as [|event later IH]; intros last_ns more; [reflexivity|].
  cbn [app annotate]. rewrite IH. reflexivity.
Qed.

Lemma records_session_calls (cycles : list cycle) :
  forall (last_ns : Z) (tail : list call),
    records_of (session_calls last_ns cycles ++ tail)
    = annotate last_ns (reported cycles) ++ records_of tail.
Proof.
  induction cycles as [|c cycles IH]; intros last_ns tail; [reflexivity|].
  cbn [session_calls]. unfold reported in *. cbn [map List.concat].
  rewrite <- app_assoc, records_cycle_calls, IH, annotate_app, app_assoc.
  reflexivity.
Qed.

Lemma records_running (b : boot) (cycles : list cycle) :
  boots b = true -> forallb completes cycles = true ->
  records_of (trace (snd (exec b cycles))) = annotate 0 (reported cycles).
Proof.
  intros Hb Hc. rewrite (exec_running _ _ Hb Hc).
  cbn [snd extend trace ready].
  rewrite <- (app_nil_r (session_calls 0 cycles)).
  change (records_of (set_up_calls ++ session_calls 0 cycles ++ []))
    with (records_of (session_calls 0 cycles ++ [])).
  rewrite records_session_calls. apply app_nil_r.
Qed.

Lemma annotate_length (batch : list gpiod_edge_event) :
  forall last_ns, List.length (annotate last_ns batch) = List.length batch.
Proof.
  induction batch as [|event later IH]; intros last_ns; simpl;
    [reflexivity | rewrite IH; reflexivity].
Qed.

Lemma annotate_first (batch : list gpiod_edge_event) (last_ns : Z)
      (event : gpiod_edge_event) :
  nth_error batch 0 = Some event ->
  nth_error (annotate last_ns batch) 0
  = Some (fields event,
          if last_ns =? 0 then None
          else Some (uint64_sub (timestamp_ns event) last_ns)).
Proof.
  destruct batch as [|e later]; simpl; [discriminate|].
  intros H. injection H as ->. reflexivity.
Qed.

(** The record of an event that is not the first depends on the event
    before it only. *)
Lemma annotate_next (batch : list gpiod_edge_event) :
  forall (last_ns : Z) (i : nat) (previous event : gpiod_edge_event),
    nth_error batch i = Some previous ->
    nth_error batch (S i) = Some event ->
    nth_error (annotate last_ns batch) (S i)
    = Some (fields event,
            if timestamp_ns previous =? 0 then None
            else Some (uint64_sub (timestamp_ns event)
                                  (timestamp_ns previous))).
Proof.
  induction batch as [|e later IH]; intros last_ns i previous event Hp He;
    [destruct i; discriminate|].
  destruct i as [|i].
  - simpl in Hp. injection Hp as ->.
    cbn [annotate nth_error]. apply annotate_first. exact He.
  - cbn [annotate nth_error]. apply IH; assumption.
Qed.

(** ** The calls of the loop *)

(** A property of single calls that the calls of the loop have holds of
    every call the completed iterations leave. *)
Lemma batch_calls_all (g : call -> bool) :
  (forall i, g (gpiod_edge_event_buffer_get_event i) = true) ->
  (forall format args, g (printf format args) = true) ->
  forall batch i last_ns, forallb g (batch_calls i last_ns batch) = true.
Proof.
  intros Hget Hprintf.
  induction batch as [|event later IH]; intros i last_ns; [reflexivity|].
  cbn [batch_calls forallb]. rewrite Hget, forallb_app, IH.
  unfold event_calls. destruct (last_ns =? 0); simpl;
    rewrite ?Hprintf; reflexivity.
Qed.

(** ** Every run *)

Section Invariant.
Variable base : list call.
Variable fact : Prop.

Lemma monitor_keeps (c : cycle) (last_ns : Z) :
  triple (looping monitoring base fact) (monitor c last_ns)
         (fun _ => looping monitoring base fact)
         (halted monitoring base fact).
Proof.
  unfold monitor.
  eapply triple_bind; [apply looping_invoke; reflexivity | intros []].
  eapply triple_bind; [apply looping_deliver; reflexivity | intros []].
  destruct ((r2 c <? 0) && (errno c =? EINTR)); [apply triple_ret; auto|].
  eapply triple_bind; [apply looping_assert | intros []].
  eapply triple_bind; [apply looping_invoke; reflexivity | intros []].
  eapply triple_bind; [apply looping_assert | intros []].
  eapply triple_bind with (Q := fun _ => looping monitoring base fact).
  - intros p Hp. rewrite print_batch.
    apply (looping_extend _ Hp). apply batch_calls_all; reflexivity.
  - intros last_ns'. cbv beta.
    eapply triple_bind; [apply looping_invoke; reflexivity | intros []].
    apply triple_ret; auto.
Qed.
End Invariant.

Lemma main_triple (b : boot) (cycles : list cycle) :
  triple (setting_up (sigint_ignored b) (sigint_after b) set_up_calls 0)
         (main b cycles)
         (fun status p => shape b (Returned status) p)
         (shape b).
Proof.
  unfold main. eapply triple_bind.
  - eapply triple_weaken;
      [ apply set_up_triple
      | auto
      | intros a p H; exact H
      | intros o p H; left; exact H ].
  - intros []. eapply triple_bind.
    + eapply triple_weaken;
        [ apply (looping_while (g := monitoring) (base := set_up_calls)
                   (fact := late_sigint b));
          [ reflexivity | intros c s; apply monitor_keeps ]
        |
        | intros a p H; exact H
        | intros o p H; right; left; exact H ].
      intros p [-> Hlate]. split; [exact Hlate|]. split; [reflexivity|].
      exists []. rewrite app_nil_r. split; reflexivity.
    + intros _ p (Hlate & Ha & ext & Ht & Hg).
      cbn. right. right. split; [reflexivity|]. split; [exact Hlate|].
      exists ext. split; [|exact Hg].
      cbn [log trace]. rewrite Ht, <- !app_assoc. reflexivity.
Qed.

Lemma exec_shape (b : boot) (cycles : list cycle) :
  shape b (fst (exec b cycles)) (snd (exec b cycles)).
Proof.
  unfold exec, run, start.
  pose proof (main_triple b cycles
                (setting_up_start (sigint_ignored b) (sigint_after b)
                   set_up_calls)) as H.
  destruct (main b cycles (fresh (sigint_ignored b) (sigint_after b)));
    exact H.
Qed.

Lemma monitoring_keeps_handles (c : call) :
  monitoring c = true -> keeps_handles c = true.
Proof. destruct c; simpl; intros H; (reflexivity || discriminate). Qed.




Lemma visited_app (tr tr' : list call) :
  visited (tr ++ tr') = visited tr ++ visited tr'.
Proof.
  induction tr as [|c tr IH]; [reflexivity|].
  destruct c; simpl; rewrite IH; reflexivity.
Qed.

Lemma read_capacities_app (tr tr' : list call) :
  read_capacities (tr ++ tr') = read_capacities tr ++ read_capacities tr'.
Proof.
  induction tr as [|c tr IH]; [reflexivity|].
  destruct c; simpl; rewrite IH; reflexivity.
Qed.

Lemma visited_batch_calls (batch : list gpiod_edge_event) :
  forall (i : nat) (last_ns : Z),
    visited (batch_calls i last_ns batch) = seq i (List.length batch).
Proof.
  induction batch as [|event later IH]; intros i last_ns; [reflexivity|].
  cbn [batch_calls visited]. rewrite visited_app, IH.
  unfold event_calls. destruct (last_ns =? 0); reflexivity.
Qed.

Lemma visited_session_calls (cycles : list cycle) :
  forall last_ns,
    visited (session_calls last_ns cycles)
    = flat_map (fun c => seq 0 (List.length (buffer c))) cycles.
Proof.
  induction cycles as [|c cycles IH]; intros last_ns; [reflexivity|].
  cbn [session_calls flat_map]. rewrite visited_app, IH.
  unfold cycle_calls. cbn [visited].
  rewrite visited_app, visited_batch_calls. cbn [visited].
  rewrite app_nil_r. reflexivity.
Qed.

Lemma read_capacities_batch_calls (batch : list gpiod_edge_event) :
  forall (i : nat) (last_ns : Z),
    read_capacities (batch_calls i last_ns batch) = [].
Proof.
  induction batch as [|event later IH]; intros i last_ns; [reflexivity|].
  cbn [batch_calls read_capacities]. rewrite read_capacities_app, IH.
  unfold event_calls. destruct (last_ns =? 0); reflexivity.
Qed.

Lemma read_capacities_session_calls (cycles : list cycle) :
  forall last_ns,
    read_capacities (session_calls last_ns cycles)
    = map (fun _ => max_events) cycles.
Proof.
  induction cycles as [|c cycles IH]; intros last_ns; [reflexivity|].
  cbn [session_calls map]. rewrite read_capacities_app, IH.
  unfold cycle_calls. cbn [read_capacities].
  rewrite read_capacities_app, read_capacities_batch_calls. reflexivity.
Qed.

(** What the reader of the specification answers. *)
Lemma reader_bound (pending : option (list gpiod_edge_event)) (capacity : Z) :
  0 < fst (EdgeEventReader_read pending capacity) ->
  fst (EdgeEventReader_read pending capacity) <= capacity /\
  Z.of_nat (List.length (snd (EdgeEventReader_read pending capacity)))
  = fst (EdgeEventReader_read pending capacity).
Proof.
  unfold EdgeEventReader_read.
  destruct pending as [queue|]; [|simpl; lia].
  pose proof (firstn_le_length (Z.to_nat capacity) queue) as Hle.
  destruct (firstn (Z.to_nat capacity) queue) as [|event batch];
    [simpl; lia|].
  cbn [fst snd]. intros _. split; [|reflexivity].
  cbn [List.length] in *. lia.
Qed.

End InputEventsFacts.

(* ================================================================== *)
(** * The shape of a run, for any of the programs *)
(* ================================================================== *)

Section Program.
Variable ignored : bool.
Variable due : option nat.
Variable calls : list call.
Variable g : call -> bool.
Variable tail : list call.
Variables C S : Type.
Variable arrival : C -> bool.
Variable body : C -> S -> M (option S).
Variable set_up : M unit.
Variable tear_down : M Z.

Hypothesis handler_in_g : g ctrl_c_handler = true.
Hypothesis body_keeps :
  forall c s, triple (looping g calls True) (body c s)
                     (fun _ => looping g calls True) (halted g calls True).
Hypothesis set_up_keeps :
  triple (setting_up ignored due calls 0) set_up
         (fun _ => looping g calls True)
         (run_shape ignored due calls g tail).
Hypothesis tear_down_calls : forall p, tear_down p = Next 0 (extend p tail).

Lemma program_shape (cycles : list C) (s0 : S) :
  triple (setting_up ignored due calls 0)
         (set_up ;; _ <- while_not_quitting arrival body cycles s0 ;; tear_down)
         (fun status => run_shape ignored due calls g tail (Returned status))
         (run_shape ignored due calls g tail).
Proof.
  eapply triple_bind; [exact set_up_keeps|].
  intros []. eapply triple_bind.
  - eapply triple_weaken;
      [ apply (looping_while (g := g) (base := calls) (fact := True));
        [ exact handler_in_g | exact body_keeps ]
      | intros p H; exact H
      | intros a p H; exact H
      | intros o p H; right; left; exact H ].
  - intros _ p (_ & _ & ext & Ht & Hg).
    rewrite tear_down_calls. right. right. split; [reflexivity|].
    exists ext. split; [|exact Hg].
    cbn [extend trace]. rewrite Ht, <- app_assoc. reflexivity.
Qed.

(** A program whose last two calls are the release and the close. *)
Lemma run_shape_orderly (quiet_tail : list call) (o : outcome) (p : proc) :
  tail = quiet_tail ++ [gpiod_line_request_release; gpiod_chip_close] ->
  quiet quiet_tail -> quiet calls ->
  (forall c, g c = true -> keeps_handles c = true) ->
  run_shape ignored due calls g tail o p ->
  orderly o (trace p) /\ closes_while_held false (trace p) = false.
Proof.
  intros Htail Hqt Hqc Hg
         [[Ho (n & _ & Hp)] | [[Ho (_ & _ & ext & Ht & He)]
                              | (Ho & ext & Ht & He)]].
  - assert (Hq : quiet (trace p))
      by (rewrite Hp; apply quiet_firstn; exact Hqc).
    split; [|apply quiet_not_held; exact Hq].
    destruct Ho as [-> | ->]; exact Hq.
  - assert (Hq : quiet (trace p)).
    { rewrite Ht. apply quiet_app; [exact Hqc|].
      exact (forallb_weaken _ _ _ Hg He). }
    split; [|apply quiet_not_held; exact Hq].
    destruct Ho as [-> | ->]; exact Hq.
  - assert (Hq : quiet (calls ++ ext ++ quiet_tail)).
    { apply quiet_app; [exact Hqc|]. apply quiet_app; [|exact Hqt].
      exact (forallb_weaken _ _ _ Hg He). }
    assert (Hsplit : trace p = (calls ++ ext ++ quiet_tail)
                       ++ [gpiod_line_request_release; gpiod_chip_close]).
    { rewrite Ht, Htail, <- !app_assoc. reflexivity. }
    subst o. split.
    + split; [reflexivity|]. eexists. split; [exact Hsplit | exact Hq].
    + rewrite Hsplit. apply quiet_then_teardown. exact Hq.
Qed.
End Program.

(* ================================================================== *)
(** * input_simple.cpp, output_simple.cpp, output1_simple.cpp *)
(* ================================================================== *)

Module InputSimpleFacts.
Import InputSimple.

Lemma print_change_keeps (offset : Z) (old new : gpiod_line_value) :
  triple (looping polling set_up_calls True) (print_change offset old new)
         (fun _ => looping polling set_up_calls True)
         (halted polling set_up_calls True).
Proof.
  unfold print_change. destruct (negb (line_value_eqb old new)).
  - eapply triple_bind; [apply looping_invoke; reflexivity | intros []].
    apply triple_ret; auto.
  - apply triple_ret; auto.
Qed.

Lemma poll_keeps (c : cycle) (old : gpiod_line_value * gpiod_line_value) :
  triple (looping polling set_up_calls True) (poll c old)
         (fun _ => looping polling set_up_calls True)
         (halted polling set_up_calls True).
Proof.
  unfold poll.
  eapply triple_bind; [apply looping_invoke; reflexivity | intros []].
  eapply triple_bind; [apply looping_assert | intros []].
  eapply triple_bind; [apply print_change_keeps | intros v0; cbv beta].
  eapply triple_bind; [apply print_change_keeps | intros v1; cbv beta].
  eapply triple_bind; [apply looping_invoke; reflexivity | intros []].
  apply triple_ret; auto.
Qed.

Lemma input_simple_set_up_keeps (b : boot) :
  triple (setting_up (sigint_ignored b) (sigint_after b) set_up_calls 0)
         (set_up b)
         (fun _ => looping polling set_up_calls True)
         (run_shape (sigint_ignored b) (sigint_after b) set_up_calls
                    polling tail).
Proof.
  assert (early : forall o p,
             stopped_early (sigint_ignored b) (sigint_after b) set_up_calls o p ->
             run_shape (sigint_ignored b) (sigint_after b) set_up_calls
                       polling tail o p)
    by (intros o p H; left; exact H).
  unfold set_up. repeat set_up_step.
  eapply triple_weaken with (P := looping polling set_up_calls True);
    [
    | intros p [-> _]; split; [exact I|]; split; [reflexivity|];
      exists []; split; reflexivity
    | intros a p H; exact H
    | intros o p H; right; left; exact H ].
  eapply triple_bind; [apply looping_invoke; reflexivity | intros []].
  apply looping_assert.
Qed.

Lemma input_simple_tear_down_calls (p : proc) : tear_down p = Next 0 (extend p tail).
Proof. unfold tear_down, tail, bind, invoke, ret. f_equal. same_proc. Qed.

Lemma input_simple_exec_shape (b : boot) (cycles : list cycle) :
  run_shape (sigint_ignored b) (sigint_after b) set_up_calls polling tail
            (fst (exec b cycles)) (snd (exec b cycles)).
Proof.
  unfold exec, run, start, main.
  pose proof (@program_shape (sigint_ignored b) (sigint_after b)
                set_up_calls polling tail _ _ sigint_at_test poll
                (set_up b) tear_down eq_refl poll_keeps (input_simple_set_up_keeps b)
                input_simple_tear_down_calls cycles (values_old b) _
                (setting_up_start (sigint_ignored b) (sigint_after b)
                   set_up_calls)) as H.
  match goal with
  | |- context [fst (match ?m with _ => _ end)] => destruct m
  end; exact H.
Qed.
End InputSimpleFacts.

Module OutputSimpleFacts.
Import OutputSimple.

Lemma output_simple_toggle_keeps (c : cycle) (code : Z) :
  triple (looping toggling set_up_calls True) (toggle c code)
         (fun _ => looping toggling set_up_calls True)
         (halted toggling set_up_calls True).
Proof.
  unfold toggle.
  eapply triple_bind; [apply looping_invoke; reflexivity | intros []].
  eapply triple_bind; [apply looping_invoke; reflexivity | intros []].
  apply triple_ret; auto.
Qed.

Lemma output_simple_set_up_keeps (b : boot) :
  triple (setting_up (sigint_ignored b) (sigint_after b) set_up_calls 0)
         (set_up b)
         (fun _ => looping toggling set_up_calls True)
         (run_shape (sigint_ignored b) (sigint_after b) set_up_calls
                    toggling tail).
Proof.
  assert (early : forall o p,
             stopped_early (sigint_ignored b) (sigint_after b) set_up_calls o p ->
             run_shape (sigint_ignored b) (sigint_after b) set_up_calls
                       toggling tail o p)
    by (intros o p H; left; exact H).
  unfold set_up.
  eapply triple_weaken
    with (P := setting_up (sigint_ignored b) (sigint_after b) set_up_calls 0)
         (E := run_shape (sigint_ignored b) (sigint_after b) set_up_calls
                         toggling tail);
    [ repeat set_up_step
    | intros p H; exact H
    |
    | intros o p H; exact H ].
  intros [] p [-> _]. split; [exact I|]. split; [reflexivity|].
  exists []. split; reflexivity.
Qed.

Lemma output_simple_tear_down_calls (p : proc) : tear_down p = Next 0 (extend p tail).
Proof. unfold tear_down, tail, bind, invoke, ret. f_equal. same_proc. Qed.

Lemma output_simple_exec_shape (b : boot) (cycles : list cycle) :
  run_shape (sigint_ignored b) (sigint_after b) set_up_calls toggling tail
            (fst (exec b cycles)) (snd (exec b cycles)).
Proof.
  unfold exec, run, start, main.
  pose proof (@program_shape (sigint_ignored b) (sigint_after b)
                set_up_calls toggling tail _ _ sigint_at_test toggle
                (set_up b) tear_down eq_refl output_simple_toggle_keeps (output_simple_set_up_keeps b)
                output_simple_tear_down_calls cycles 0 _
                (setting_up_start (sigint_ignored b) (sigint_after b)
                   set_up_calls)) as H.
  match goal with
  | |- context [fst (match ?m with _ => _ end)] => destruct m
  end; exact H.
Qed.
End OutputSimpleFacts.

Module Output1SimpleFacts.
Import Output1Simple.

Lemma output1_simple_toggle_keeps (c : cycle) (code : Z) :
  triple (looping toggling set_up_calls True) (toggle c code)
         (fun _ => looping toggling set_up_calls True)
         (halted toggling set_up_calls True).
Proof.
  unfold toggle.
  eapply triple_bind; [apply looping_invoke; reflexivity | intros []].
  eapply triple_bind; [apply looping_invoke; reflexivity | intros []].
  apply triple_ret; auto.
Qed.

Lemma output1_simple_set_up_keeps (b : boot) :
  triple (setting_up (sigint_ignored b) (sigint_after b) set_up_calls 0)
         (set_up b)
         (fun _ => looping toggling set_up_calls True)
         (run_shape (sigint_ignored b) (sigint_after b) set_up_calls
                    toggling tail).
Proof.
  assert (early : forall o p,
             stopped_early (sigint_ignored b) (sigint_after b) set_up_calls o p ->
             run_shape (sigint_ignored b) (sigint_after b) set_up_calls
                       toggling tail o p)
    by (intros o p H; left; exact H).
  unfold set_up.
  eapply triple_weaken
    with (P := setting_up (sigint_ignored b) (sigint_after b) set_up_calls 0)
         (E := run_shape (sigint_ignored b) (sigint_after b) set_up_calls
                         toggling tail);
    [ repeat set_up_step
    | intros p H; exact H
    |
    | intros o p H; exact H ].
  intros [] p [-> _]. split; [exact I|]. split; [reflexivity|].
  exists []. split; reflexivity.
Qed.

Lemma output1_simple_tear_down_calls (p : proc) : tear_down p = Next 0 (extend p tail).
Proof. unfold tear_down, tail, bind, invoke, ret. f_equal. same_proc. Qed.

Lemma output1_simple_exec_shape (b : boot) (cycles : list cycle) :
  run_shape (sigint_ignored b) (sigint_after b) set_up_calls toggling tail
            (fst (exec b cycles)) (snd (exec b cycles)).
Proof.
  unfold exec, run, start, main.
  pose proof (@program_shape (sigint_ignored b) (sigint_after b)
                set_up_calls toggling tail _ _ sigint_at_test toggle
                (set_up b) tear_down eq_refl output1_simple_toggle_keeps (output1_simple_set_up_keeps b)
                output1_simple_tear_down_calls cycles 0 _
                (setting_up_start (sigint_ignored b) (sigint_after b)
                   set_up_calls)) as H.
  match goal with
  | |- context [fst (match ?m with _ => _ end)] => destruct m
  end; exact H.
Qed.
End Output1SimpleFacts.

(* ================================================================== *)
(** * The properties of the specification *)
(* ================================================================== *)

Unset Implicit Arguments.

Section InputEventsClaims.
Import InputEvents InputEventsFacts Scenario.

(** C3.  Each batch that is read is printed as one line per event, in the
  order of the buffer, each line made of the global sequence number, the
  line sequence number, the offset, 1 for a rising and 0 for a falling
  edge, the timestamp and the optional delta, in the layout
  <global_seqno>:<line_seqno> pin <offset> = <0|1> @ <timestamp_ns>[ +<delta_ns>];
  one blank line follows the last event of the batch. *)
Theorem batch_printed_in_order (b : boot) (cycles : list cycle) (c : cycle) :
boots b = true ->
forallb completes (cycles ++ [c]) = true ->
let ds := deltas (session_last 0 cycles) (buffer c) in
List.length ds = List.length (buffer c) /\
stdout (trace (snd (exec b (cycles ++ [c]))))
= (stdout (trace (snd (exec b cycles))) ++ batch_text (buffer c) ds)%string.
Proof.
intros Hb Hall ds. split; [apply deltas_length|].
assert (Hc : forallb completes cycles = true).
{ rewrite forallb_app in Hall. apply andb_prop in Hall. tauto. }
rewrite (exec_running _ _ Hb Hall), (exec_running _ _ Hb Hc).
cbn [snd extend trace].
rewrite session_calls_snoc, app_assoc, stdout_app, stdout_cycle_calls.
reflexivity.
Qed.

Lemma batch_printed_in_order_witness :
let ds := deltas (session_last 0 [two_events]) (buffer one_more) in
List.length ds = List.length (buffer one_more) /\
stdout (trace (snd (exec plain_boot ([two_events] ++ [one_more]))))
= (stdout (trace (snd (exec plain_boot [two_events])))
     ++ batch_text (buffer one_more) ds)%string.
Proof.
apply (batch_printed_in_order plain_boot [two_events] one_more); reflexivity.
Defined.

(** C2, amended.  The first event reported carries no delta.  An event
  reported after one whose timestamp is not 0 carries the difference of
  the two timestamps modulo 2^64, which is the plain difference when the
  timestamps are positive, below 2^64 and do not decrease; this holds
  across batches. *)
Theorem delta_of_later_events (b : boot) (cycles : list cycle) :
boots b = true ->
forallb completes cycles = true ->
let events := reported cycles in
let records := records_of (trace (snd (exec b cycles))) in
List.length records = List.length events /\
(forall first,
    nth_error events 0 = Some first ->
    nth_error records 0 = Some (fields first, None)) /\
(forall i previous event,
    nth_error events i = Some previous ->
    nth_error events (S i) = Some event ->
    timestamp_ns previous <> 0 ->
    nth_error records (S i)
    = Some (fields event,
            Some ((timestamp_ns event - timestamp_ns previous) mod 2 ^ 64))) /\
(forall i previous event,
    nth_error events i = Some previous ->
    nth_error events (S i) = Some event ->
    0 < timestamp_ns previous <= timestamp_ns event ->
    timestamp_ns event < 2 ^ 64 ->
    nth_error records (S i)
    = Some (fields event, Some (timestamp_ns event - timestamp_ns previous))).
Proof.
intros Hb Hc events records. subst events records.
rewrite (records_running _ _ Hb Hc).
split; [apply annotate_length|].
split; [intros first H; exact (annotate_first _ 0 H)|].
split.
- intros i previous event Hp He Hnz.
  rewrite (annotate_next _ 0 _ Hp He).
  destruct (Z.eqb_spec (timestamp_ns previous) 0); [contradiction|].
  reflexivity.
- intros i previous event Hp He Hle Hlt.
  rewrite (annotate_next _ 0 _ Hp He).
  destruct (Z.eqb_spec (timestamp_ns previous) 0); [lia|].
  unfold uint64_sub. rewrite Z.mod_small by lia. reflexivity.
Qed.

Lemma delta_of_later_events_witness :
let events := reported [two_events; one_more] in
let records := records_of (trace (snd (exec plain_boot [two_events; one_more]))) in
List.length records = List.length events /\
(forall first,
    nth_error events 0 = Some first ->
    nth_error records 0 = Some (fields first, None)) /\
(forall i previous event,
    nth_error events i = Some previous ->
    nth_error events (S i) = Some event ->
    timestamp_ns previous <> 0 ->
    nth_error records (S i)
    = Some (fields event,
            Some ((timestamp_ns event - timestamp_ns previous) mod 2 ^ 64))) /\
(forall i previous event,
    nth_error events i = Some previous ->
    nth_error events (S i) = Some event ->
    0 < timestamp_ns previous <= timestamp_ns event ->
    timestamp_ns event < 2 ^ 64 ->
    nth_error records (S i)
    = Some (fields event, Some (timestamp_ns event - timestamp_ns previous))).
Proof.
apply (delta_of_later_events plain_boot [two_events; one_more]); reflexivity.
Defined.

(** C2 as the specification words it fails on two inputs: after an event
  stamped 0 the next event carries no delta although it is not the first,
  and after a timestamp that goes back the delta is not the difference. *)
Lemma delta_claim_counterexample :
(nth_error (reported [zero_stamp]) 1 = Some stamped_0 /\
 nth_error (reported [zero_stamp]) 2 = Some stamped_7 /\
 nth_error (records_of (trace (snd (exec plain_boot [zero_stamp])))) 2
 = Some (fields stamped_7, None)) /\
(nth_error (reported [goes_back]) 0 = Some rising_23 /\
 nth_error (reported [goes_back]) 1 = Some stamped_400 /\
 timestamp_ns stamped_400 - timestamp_ns rising_23 = -600 /\
 nth_error (records_of (trace (snd (exec plain_boot [goes_back])))) 1
 = Some (fields stamped_400, Some 18446744073709551016)).
Proof. vm_compute. repeat split; reflexivity. Qed.

(** C8.  The previous timestamp is unset when it is 0: an event reported
  after an event whose timestamp is 0 carries no delta, although it is not
  the first event reported. *)
Theorem zero_timestamp_reads_as_unset (b : boot) (cycles : list cycle)
      (i : nat) (previous event : gpiod_edge_event) :
boots b = true ->
forallb completes cycles = true ->
nth_error (reported cycles) i = Some previous ->
nth_error (reported cycles) (S i) = Some event ->
timestamp_ns previous = 0 ->
nth_error (records_of (trace (snd (exec b cycles)))) (S i)
= Some (fields event, None).
Proof.
intros Hb Hc Hp He Hz.
rewrite (records_running _ _ Hb Hc), (annotate_next _ 0 _ Hp He), Hz.
reflexivity.
Qed.

Lemma zero_timestamp_reads_as_unset_witness :
nth_error (records_of (trace (snd (exec plain_boot [zero_stamp])))) 2
= Some (fields stamped_7, None).
Proof.
apply (zero_timestamp_reads_as_unset plain_boot [zero_stamp] 1 stamped_0
         stamped_7); reflexivity.
Defined.

(** C9.  The delta is an unsigned 64-bit difference: for an event whose
  timestamp is below the one of the event before it, the delta printed is
  the difference plus 2^64, that is the difference modulo 2^64, a positive
  number below 2^64 printed without a sign. *)
Theorem delta_wraps_around (b : boot) (cycles : list cycle)
      (i : nat) (previous event : gpiod_edge_event) :
boots b = true ->
forallb completes cycles = true ->
nth_error (reported cycles) i = Some previous ->
nth_error (reported cycles) (S i) = Some event ->
0 <= timestamp_ns event < timestamp_ns previous ->
timestamp_ns previous < 2 ^ 64 ->
let delta := timestamp_ns event - timestamp_ns previous + 2 ^ 64 in
nth_error (records_of (trace (snd (exec b cycles)))) (S i)
= Some (fields event, Some delta) /\
delta = (timestamp_ns event - timestamp_ns previous) mod 2 ^ 64 /\
0 < delta < 2 ^ 64 /\
exists digits,
  render false delta_format [delta]
  = (" +" ++ NilZero.string_of_uint digits)%string.
Proof.
intros Hb Hc Hp He Hlt Hmax delta.
assert (Hmod : (timestamp_ns event - timestamp_ns previous) mod 2 ^ 64 = delta).
{ subst delta. symmetry. apply Z.mod_unique with (q := -1); lia. }
split; [|split; [symmetry; exact Hmod | split; [subst delta; lia|]]].
- rewrite (records_running _ _ Hb Hc), (annotate_next _ 0 _ Hp He).
  destruct (Z.eqb_spec (timestamp_ns previous) 0); [lia|].
  unfold uint64_sub. rewrite Hmod. reflexivity.
- assert (Hpos : 0 < delta) by (subst delta; lia).
  destruct delta as [|d|d]; try lia.
  exists (Pos.to_uint d). simpl. rewrite string_app_nil_r. reflexivity.
Qed.

Lemma delta_wraps_around_witness :
let delta := timestamp_ns stamped_400 - timestamp_ns rising_23 + 2 ^ 64 in
nth_error (records_of (trace (snd (exec plain_boot [goes_back])))) 1
= Some (fields stamped_400, Some delta) /\
delta = (timestamp_ns stamped_400 - timestamp_ns rising_23) mod 2 ^ 64 /\
0 < delta < 2 ^ 64 /\
exists digits,
  render false delta_format [delta]
  = (" +" ++ NilZero.string_of_uint digits)%string.
Proof.
apply (delta_wraps_around plain_boot [goes_back] 0 rising_23 stamped_400);
  try reflexivity; vm_compute; split; congruence.
Defined.

(** C4.  A wait that comes back negative with EINTR, as it does when Ctrl-C
  arrives while it blocks, is not taken for a failure: no assert fails, the
  loop is left, the request is released, the chip is closed and main
  returns 0.  Nothing is printed after the interruption, whatever events
  are still to come. *)
Theorem interrupted_wait_drains (b : boot) (cycles : list cycle) (c : cycle)
      (rest : list cycle) :
boots b = true ->
forallb completes cycles = true ->
interrupted c = true ->
let before := snd (exec b cycles) in
let after := snd (exec b (cycles ++ c :: rest)) in
fst (exec b (cycles ++ c :: rest)) = Returned 0 /\
trace after
= trace before
    ++ gpiod_line_request_wait_edge_events (-1)
    :: (if sigint_in_wait c then [ctrl_c_handler] else [])
    ++ [gpiod_line_request_release; gpiod_chip_close] /\
quitting after = sigint_in_wait c /\
stdout (trace after) = stdout (trace before) /\
records_of (trace after) = records_of (trace before).
Proof.
intros Hb Hc Hi before after. subst before after.
rewrite (exec_interrupted _ _ _ rest Hb Hc Hi), (exec_running _ _ Hb Hc).
cbn [fst snd extend trace ready quitting].
split; [reflexivity|].
split; [rewrite <- app_assoc; reflexivity|].
split; [reflexivity|].
split.
- rewrite (app_assoc set_up_calls), stdout_app.
  destruct (sigint_in_wait c); cbn [app stdout]; apply string_app_nil_r.
- change (records_of (set_up_calls ++ session_calls 0 cycles))
    with (records_of (session_calls 0 cycles)).
  match goal with
  | |- records_of (set_up_calls ++ ?x) = _ =>
      change (records_of (set_up_calls ++ x)) with (records_of x)
  end.
  rewrite records_session_calls.
  rewrite <- (app_nil_r (session_calls 0 cycles)), records_session_calls.
  destruct (sigint_in_wait c); reflexivity.
Qed.

Lemma interrupted_wait_drains_witness :
let before := snd (exec plain_boot [two_events]) in
let after := snd (exec plain_boot ([two_events] ++ ctrl_c_in_wait :: [one_more])) in
fst (exec plain_boot ([two_events] ++ ctrl_c_in_wait :: [one_more])) = Returned 0 /\
trace after
= trace before
    ++ gpiod_line_request_wait_edge_events (-1)
    :: (if sigint_in_wait ctrl_c_in_wait then [ctrl_c_handler] else [])
    ++ [gpiod_line_request_release; gpiod_chip_close] /\
quitting after = sigint_in_wait ctrl_c_in_wait /\
stdout (trace after) = stdout (trace before) /\
records_of (trace after) = records_of (trace before).
Proof.
apply (interrupted_wait_drains plain_boot [two_events] ctrl_c_in_wait
         [one_more]); reflexivity.
Defined.



(** C6.  With the reader of the specification behind every read, each
  batch holds more than 0 and at most max_events = 32 events, every read is
  asked for at most max_events, and for each batch the loop visits the
  indices 0, 1, ... below the count returned, in that order, and no other. *)
Theorem batch_is_bounded (b : boot) (cycles : list cycle) :
boots b = true ->
forallb completes cycles = true ->
Forall served cycles ->
let tr := trace (snd (exec b cycles)) in
max_events = 32 /\
Forall (fun c => 0 < num_events c <= max_events /\
                 Z.of_nat (List.length (buffer c)) = num_events c) cycles /\
read_capacities tr = map (fun _ => max_events) cycles /\
visited tr = flat_map (fun c => seq 0 (Z.to_nat (num_events c))) cycles.
Proof.
intros Hb Hc Hs tr. subst tr.
assert (Hbound : Forall (fun c => 0 < num_events c <= max_events /\
                   Z.of_nat (List.length (buffer c)) = num_events c) cycles).
{ rewrite Forall_forall in Hs. apply Forall_forall. intros c Hin.
  destruct (Hs c Hin) as [pending Hp].
  rewrite forallb_forall in Hc. specialize (Hc c Hin).
  unfold completes in Hc.
  repeat (apply andb_prop in Hc; destruct Hc as [Hc ?]).
  assert (Hn : 0 < num_events c) by lia.
  pose proof (reader_bound pending max_events) as Hr.
  rewrite <- Hp in Hr. cbn [fst snd] in Hr.
  specialize (Hr Hn). lia. }
split; [reflexivity|]. split; [exact Hbound|].
rewrite (exec_running _ _ Hb Hc). cbn [snd extend trace ready].
split.
- rewrite read_capacities_app, read_capacities_session_calls. reflexivity.
- rewrite visited_app, visited_session_calls. cbn [app].
  change (visited set_up_calls) with (@nil nat). cbn [app].
  clear Hs Hc. induction Hbound as [|c cycles [_ Hlen] _ IH];
    [reflexivity|].
  cbn [flat_map]. rewrite IH, <- Hlen, Nat2Z.id. reflexivity.
Qed.

Lemma batch_is_bounded_witness :
let tr := trace (snd (exec plain_boot [two_events; one_more])) in
max_events = 32 /\
Forall (fun c => 0 < num_events c <= max_events /\
                 Z.of_nat (List.length (buffer c)) = num_events c)
       [two_events; one_more] /\
read_capacities tr = map (fun _ => max_events) [two_events; one_more] /\
visited tr
= flat_map (fun c => seq 0 (Z.to_nat (num_events c))) [two_events; one_more].
Proof.
apply (batch_is_bounded plain_boot [two_events; one_more]);
  [reflexivity | reflexivity |].
repeat constructor.
- exists (Some [rising_23; falling_24]). reflexivity.
- exists (Some [falling_23]). reflexivity.
Defined.



(** C10.  signal() is the 18th call of main: the 17 calls before it are the
  whole configuration, the opening of the chip and the request of the
  lines, and only calls of the loop and of the tear-down follow it.  No
  run of the handler precedes it, and a process stopped before it has
  [quitting] unset.  A SIGINT that arrives before any of these 18 calls,
  with the default action, ends the process killed (or aborted by an
  earlier assert) with [quitting] unset, the handler never run, nothing
  released and nothing closed. *)
Theorem handler_installed_after_set_up (b : boot) (cycles : list cycle) :
let o := fst (exec b cycles) in
let p := snd (exec b cycles) in
(nth_error before_signal 10 = Some (gpiod_chip_open chip_path) /\
 nth_error before_signal 13 = Some gpiod_chip_request_lines /\
 List.length before_signal = 17%nat /\
 count is_handler_run before_signal = 0%nat) /\
((exists n, (n <= 17)%nat /\ trace p = firstn n before_signal /\
            quitting p = false /\ (o = Aborted \/ o = Killed)) \/
 (exists ext, trace p = before_signal ++ signal_SIGINT :: ext /\
              forallb after_signal ext = true)) /\
(sigint_ignored b = false ->
 forall k, sigint_after b = Some k -> (k <= 17)%nat ->
   (o = Aborted \/ o = Killed) /\ quitting p = false /\
   count is_handler_run (trace p) = 0%nat /\ quiet (trace p)).
Proof.
intros o p. subst o p.
split; [repeat split; reflexivity|].
assert (Hfirst : forall n, (n < List.length set_up_calls)%nat ->
                           firstn n set_up_calls = firstn n before_signal).
{ intros n Hn. unfold set_up_calls in *. rewrite firstn_app.
  rewrite length_app in Hn. simpl in Hn.
  replace (n - List.length before_signal)%nat with 0%nat by (simpl; lia).
  apply app_nil_r. }
pose proof (exec_shape b cycles) as Hshape.
split.
- destruct Hshape
    as [[Ho (n & Hn & Hp)] | [[Ho (_ & _ & ext & Ht & Hg)]
                             | (Ho & _ & ext & Ht & Hg)]].
  + left. exists n. rewrite Hp. cbn [trace quitting].
    split; [simpl in Hn; lia|]. split; [apply Hfirst; exact Hn|].
    split; [reflexivity | exact Ho].
  + right. exists ext. split.
    * rewrite Ht. unfold set_up_calls. rewrite <- app_assoc. reflexivity.
    * apply (forallb_weaken monitoring); [|exact Hg].
      intros c Hc. unfold after_signal. rewrite Hc. reflexivity.
  + right.
    exists (ext ++ [gpiod_line_request_release; gpiod_chip_close]). split.
    * rewrite Ht. unfold set_up_calls. rewrite <- app_assoc. reflexivity.
    * rewrite forallb_app.
      rewrite (forallb_weaken monitoring after_signal ext); [reflexivity| |exact Hg].
      intros c Hc. unfold after_signal. rewrite Hc. reflexivity.
- intros Hi k Hk Hle.
  destruct Hshape
    as [[Ho (n & Hn & Hp)] | [[_ (Hlate & _)] | (_ & Hlate & _)]].
  + rewrite Hp. cbn [trace quitting].
    split; [exact Ho|]. split; [reflexivity|]. split.
    * pose proof (count_firstn is_handler_run n set_up_calls) as Hc.
      change (count is_handler_run set_up_calls) with 0%nat in Hc. lia.
    * apply quiet_firstn. reflexivity.
  + specialize (Hlate Hi k Hk). lia.
  + specialize (Hlate Hi k Hk). lia.
Qed.

Lemma handler_installed_after_set_up_witness :
let o := fst (exec early_sigint_boot [two_events]) in
let p := snd (exec early_sigint_boot [two_events]) in
(o = Aborted \/ o = Killed) /\ quitting p = false /\
count is_handler_run (trace p) = 0%nat /\ quiet (trace p).
Proof.
apply (handler_installed_after_set_up early_sigint_boot [two_events])
  with (k := 5%nat); [reflexivity | reflexivity | lia].
Defined.

End InputEventsClaims.

Section TeardownOrder.
Import Scenario.

(** C5, amended.  In input_events, input_simple and output_simple every run
  that returns has released the request and then closed the chip as its
  last two calls, once each, a run stopped earlier has made neither call,
  and no run closes the chip while the request is held.  output1_simple
  is written the other way: it closes the chip during set-up, right after
  the lines are granted and while the request is held, and a run that
  returns ends with the release, with no close after it. *)
Theorem release_and_close_order :
(forall b cycles,
    orderly (fst (InputEvents.exec b cycles))
            (trace (snd (InputEvents.exec b cycles))) /\
    closes_while_held false (trace (snd (InputEvents.exec b cycles))) = false) /\
(forall b cycles,
    orderly (fst (InputSimple.exec b cycles))
            (trace (snd (InputSimple.exec b cycles))) /\
    closes_while_held false (trace (snd (InputSimple.exec b cycles))) = false) /\
(forall b cycles,
    orderly (fst (OutputSimple.exec b cycles))
            (trace (snd (OutputSimple.exec b cycles))) /\
    closes_while_held false (trace (snd (OutputSimple.exec b cycles))) = false) /\
(forall b cycles,
    closes_early Output1Simple.set_up_calls
                 (fst (Output1Simple.exec b cycles))
                 (trace (snd (Output1Simple.exec b cycles)))).
Proof.
split; [|split; [|split]]; intros b cycles.
- apply (@run_shape_orderly (InputEvents.sigint_ignored b)
           (InputEvents.sigint_after b) InputEvents.set_up_calls
           InputEvents.monitoring
           [gpiod_line_request_release; gpiod_chip_close] []);
    [ reflexivity | reflexivity | reflexivity
    | exact InputEventsFacts.monitoring_keeps_handles | ].
  destruct (InputEventsFacts.exec_shape b cycles)
    as [H | [[Ho (_ & Hl)] | (Ho & _ & H)]].
  + left. exact H.
  + right. left. split; [exact Ho|]. split; [exact I | exact Hl].
  + right. right. split; [exact Ho | exact H].
- apply (@run_shape_orderly (InputSimple.sigint_ignored b)
           (InputSimple.sigint_after b) InputSimple.set_up_calls
           InputSimple.polling InputSimple.tail []);
    [ reflexivity | reflexivity | reflexivity
    | intros c; destruct c; simpl; intros H; (reflexivity || discriminate)
    | apply InputSimpleFacts.input_simple_exec_shape ].
- apply (@run_shape_orderly (OutputSimple.sigint_ignored b)
           (OutputSimple.sigint_after b) OutputSimple.set_up_calls
           OutputSimple.toggling OutputSimple.tail
           [gpiod_line_request_set_values (nth 0 OutputSimple.code_values [])]);
    [ reflexivity | reflexivity | reflexivity
    | intros c; destruct c; simpl; intros H; (reflexivity || discriminate)
    | apply OutputSimpleFacts.output_simple_exec_shape ].
- assert (Hg : forall ext, forallb Output1Simple.toggling ext = true ->
                           quiet ext).
  { intros ext. apply forallb_weaken.
    intros c; destruct c; simpl; intros H; (reflexivity || discriminate). }
  destruct (Output1SimpleFacts.output1_simple_exec_shape b cycles)
    as [[Ho (n & _ & Hp)] | [[Ho (_ & _ & ext & Ht & He)]
                            | (Ho & ext & Ht & He)]].
  + assert (Hc : count is_release (trace (snd (Output1Simple.exec b cycles))) = 0%nat /\
                 (count is_close (trace (snd (Output1Simple.exec b cycles))) <= 1)%nat).
    { rewrite Hp. cbn [trace].
      pose proof (count_firstn is_release n Output1Simple.set_up_calls) as H1.
      pose proof (count_firstn is_close n Output1Simple.set_up_calls) as H2.
      change (count is_release Output1Simple.set_up_calls) with 0%nat in H1.
      change (count is_close Output1Simple.set_up_calls) with 1%nat in H2.
      lia. }
    destruct Ho as [-> | ->]; exact Hc.
  + assert (Hc : count is_release (trace (snd (Output1Simple.exec b cycles))) = 0%nat /\
                 (count is_close (trace (snd (Output1Simple.exec b cycles))) <= 1)%nat).
    { rewrite Ht, !count_app.
      destruct (quiet_count (Hg ext He)) as [-> ->].
      change (count is_release Output1Simple.set_up_calls) with 0%nat.
      change (count is_close Output1Simple.set_up_calls) with 1%nat.
      lia. }
    destruct Ho as [-> | ->]; exact Hc.
  + rewrite Ho, Ht. split; [reflexivity|]. split; [reflexivity|].
    exists (ext ++ [gpiod_line_request_set_value Output1Simple.gpio_num
                      (nth 0 Output1Simple.code_values GPIOD_LINE_VALUE_ERROR)]).
    split; [unfold Output1Simple.tail; rewrite <- !app_assoc; reflexivity|].
    apply quiet_app; [exact (Hg ext He) | reflexivity].
Qed.

(** C5 as the specification words it fails in output1_simple: the chip is
  closed as the 14th call, three calls after the lines are granted and
  before the release, which is the last call. *)
Lemma output1_closes_chip_while_request_held :
let o := fst (Output1Simple.exec output1_boot output1_cycles) in
let tr := trace (snd (Output1Simple.exec output1_boot output1_cycles)) in
o = Returned 0 /\
nth_error tr 10 = Some gpiod_chip_request_lines /\
nth_error tr 13 = Some gpiod_chip_close /\
nth_error tr 21 = Some gpiod_line_request_release /\
List.length tr = 22%nat /\
closes_while_held false tr = true.
Proof. vm_compute. repeat split; reflexivity. Qed.

End TeardownOrder.

(* ================================================================== *)
(** * Further properties of the programs *)
(* ================================================================== *)

(** ** Set-up, step by step *)

Lemma input_events_set_up_steps (b : InputEvents.boot) :
  InputEvents.set_up b = run_steps (InputEvents.checks b) install_handler.
Proof. reflexivity. Qed.

Lemma input_simple_set_up_steps (b : InputSimple.boot) :
  InputSimple.set_up b
  = run_steps (InputSimple.checks b)
      (install_handler ;; invoke gpiod_line_request_get_values ;;
       assert (InputSimple.r2 b =? 0)).
Proof. reflexivity. Qed.

Lemma output_simple_set_up_steps (b : OutputSimple.boot) :
  OutputSimple.set_up b = run_steps (OutputSimple.checks b) install_handler.
Proof. reflexivity. Qed.

Lemma output1_simple_set_up_steps (b : Output1Simple.boot) :
  Output1Simple.set_up b = run_steps (Output1Simple.checks b) install_handler.
Proof. reflexivity. Qed.

Lemma startup_plain (action : sigaction) (due : option nat) (c : call)
      (done : list call) :
  action <> SIG_ctrl_c_handler ->
  kills action due (List.length done) = false ->
  startup c (mkProc false action due done)
  = Next tt (mkProc false action due (done ++ [c])).
Proof.
  unfold kills, startup, bind, deliver, due_now, invoke, log; simpl.
  intros Hh. destruct action.
  - destruct due as [k|]; [intros ->|intros _]; reflexivity.
  - intros _. destruct due as [k|]; [|reflexivity].
    destruct (Nat.eqb k (List.length done)); reflexivity.
  - contradiction.
Qed.

Lemma startup_killed (action : sigaction) (due : option nat) (c : call)
      (done : list call) :
  kills action due (List.length done) = true ->
  startup c (mkProc false action due done)
  = Stop Killed (mkProc false action due done).
Proof.
  unfold kills, startup, bind, deliver, due_now; simpl.
  destruct action; try discriminate.
  destruct due as [k|]; [|discriminate]. intros ->. reflexivity.
Qed.

Section Steps.
Variable action : sigaction.
Variable due : option nat.
Variable finish : M unit.
Hypothesis not_handled : action <> SIG_ctrl_c_handler.

Lemma run_steps_passes (steps : list (call * bool)) :
  forall done : list call,
    forallb snd steps = true ->
    (forall i, (i < List.length steps)%nat ->
               kills action due (List.length done + i) = false) ->
    run_steps steps finish (mkProc false action due done)
    = finish (mkProc false action due (done ++ map fst steps)).
Proof.
  induction steps as [|[c ok] later IH]; intros done Hok Hsafe.
  - simpl. rewrite app_nil_r. reflexivity.
  - simpl in Hok. apply andb_prop in Hok. destruct Hok as [-> Hok].
    cbn [run_steps]. unfold bind at 1.
    rewrite startup_plain;
      [ | exact not_handled
        | rewrite <- (Nat.add_0_r (List.length done)); apply Hsafe; simpl; lia ].
    unfold bind at 1. cbn [assert ret].
    rewrite IH; [|exact Hok|].
    + cbn [map fst]. rewrite <- app_assoc. reflexivity.
    + intros i Hi. rewrite length_app. cbn [List.length].
      replace (List.length done + 1 + i)%nat with (List.length done + S i)%nat
        by lia.
      apply Hsafe. simpl. lia.
Qed.

Lemma run_steps_aborts (steps : list (call * bool)) :
  forall (done : list call) (j : nat),
    first_failure steps = Some j ->
    (forall i, (i <= j)%nat ->
               kills action due (List.length done + i) = false) ->
    run_steps steps finish (mkProc false action due done)
    = Stop Aborted
        (mkProc false action due (done ++ firstn (S j) (map fst steps))).
Proof.
  induction steps as [|[c ok] later IH]; intros done j Hj Hsafe;
    [discriminate|].
  cbn [run_steps first_failure] in *. unfold bind at 1.
  rewrite startup_plain;
    [ | exact not_handled
      | rewrite <- (Nat.add_0_r (List.length done)); apply Hsafe; lia ].
  unfold bind at 1. destruct ok.
  - destruct (first_failure later) as [j'|] eqn:Ej; [|discriminate].
    injection Hj as <-. cbn [assert ret].
    rewrite (IH _ j' eq_refl).
    + cbn [map fst firstn]. rewrite <- app_assoc. reflexivity.
    + intros i Hi. rewrite length_app. cbn [List.length].
      replace (List.length done + 1 + i)%nat with (List.length done + S i)%nat
        by lia.
      apply Hsafe. lia.
  - injection Hj as <-. reflexivity.
Qed.

Lemma run_steps_killed (steps : list (call * bool)) :
  forall (done : list call) (k : nat),
    (k < List.length steps)%nat ->
    forallb snd (firstn k steps) = true ->
    (forall i, (i < k)%nat ->
               kills action due (List.length done + i) = false) ->
    kills action due (List.length done + k) = true ->
    run_steps steps finish (mkProc false action due done)
    = Stop Killed
        (mkProc false action due (done ++ firstn k (map fst steps))).
Proof.
  induction steps as [|[c ok] later IH]; intros done k Hk Hok Hsafe Hkill;
    [simpl in Hk; lia|].
  cbn [run_steps]. unfold bind at 1. destruct k as [|k].
  - rewrite Nat.add_0_r in Hkill. rewrite (startup_killed _ _ _ _ Hkill).
    cbn [firstn]. rewrite app_nil_r. reflexivity.
  - rewrite startup_plain;
      [ | exact not_handled
        | rewrite <- (Nat.add_0_r (List.length done)); apply Hsafe; lia ].
    cbn [firstn forallb snd] in Hok. apply andb_prop in Hok.
    destruct Hok as [-> Hok]. unfold bind at 1. cbn [assert ret].
    rewrite (IH _ k).
    + cbn [map fst firstn]. rewrite <- app_assoc. reflexivity.
    + simpl in Hk. lia.
    + exact Hok.
    + intros i Hi. rewrite length_app. cbn [List.length].
      replace (List.length done + 1 + i)%nat with (List.length done + S i)%nat
        by lia.
      apply Hsafe. lia.
    + rewrite length_app. cbn [List.length].
      replace (List.length done + 1 + k)%nat with (List.length done + S k)%nat
        by lia.
      exact Hkill.
Qed.
End Steps.

(** ** input_events.cpp *)

Module InputEventsMore.
Import InputEvents InputEventsFacts.

Lemma start_action (b : boot) :
  (if sigint_ignored b then SIG_IGN else SIG_DFL) <> SIG_ctrl_c_handler.
Proof. destruct (sigint_ignored b); discriminate. Qed.

Lemma kills_none (action : sigaction) (n : nat) : kills action None n = false.
Proof. destruct action; reflexivity. Qed.

(** One iteration, whatever the environment does, once the handler is
    installed. *)
Lemma monitor_cases (c : cycle) (last_ns : Z) (p : proc) :
  sigint_action p = SIG_ctrl_c_handler ->
  let waited := log (gpiod_line_request_wait_edge_events (-1)) p in
  let p2 := if sigint_in_wait c then run_ctrl_c_handler waited else waited in
  monitor c last_ns p
  = if (r2 c <? 0) && (errno c =? EINTR) then Next None p2
    else if negb (r2 c =? 1) then Stop Aborted p2
    else if negb (num_events c >? 0)
         then Stop Aborted
                (log (gpiod_line_request_read_edge_events max_events) p2)
         else Next (Some (last_after last_ns (buffer c)))
                (extend p2
                   (gpiod_line_request_read_edge_events max_events
                      :: batch_calls 0 last_ns (buffer c) ++ [printf nl []])).
Proof.
  intros Ha waited p2. subst waited p2.
  unfold monitor, bind, invoke, deliver; simpl. rewrite Ha.
  destruct (sigint_in_wait c);
    destruct ((r2 c <? 0) && (errno c =? EINTR)); try reflexivity;
    destruct (r2 c =? 1); try reflexivity;
    destruct (num_events c >? 0); try reflexivity;
    simpl; rewrite print_batch; unfold ret; apply f_equal;
    unfold extend, log, run_ctrl_c_handler;
    cbn [quitting sigint_action sigint_due trace];
    apply f_equal; rewrite <- !app_assoc; reflexivity.
Qed.

(** What one iteration adds to stdout, whatever the environment does. *)
Lemma monitor_stdout (c : cycle) (last_ns : Z) (p : proc) :
  sigint_action p = SIG_ctrl_c_handler ->
  match monitor c last_ns p with
  | Next (Some l) p' =>
      l = last_after last_ns (buffer c) /\
      sigint_action p' = SIG_ctrl_c_handler /\
      stdout (trace p')
      = (stdout (trace p)
           ++ batch_text (buffer c) (deltas last_ns (buffer c)))%string
  | Next None p' => stdout (trace p') = stdout (trace p)
  | Stop _ p' => stdout (trace p') = stdout (trace p)
  end.
Proof.
  intros Ha. rewrite (monitor_cases c last_ns p Ha). cbv zeta.
  assert (Hw : stdout (trace (if sigint_in_wait c
                              then run_ctrl_c_handler
                                     (log (gpiod_line_request_wait_edge_events (-1)) p)
                              else log (gpiod_line_request_wait_edge_events (-1)) p))
               = stdout (trace p)).
  { destruct (sigint_in_wait c); cbn [trace log run_ctrl_c_handler];
      rewrite ?stdout_app; cbn [stdout]; rewrite ?string_app_nil_r;
      reflexivity. }
  assert (Hact : sigint_action
                   (if sigint_in_wait c
                    then run_ctrl_c_handler
                           (log (gpiod_line_request_wait_edge_events (-1)) p)
                    else log (gpiod_line_request_wait_edge_events (-1)) p)
                 = SIG_ctrl_c_handler)
    by (destruct (sigint_in_wait c); exact Ha).
  destruct ((r2 c <? 0) && (errno c =? EINTR)); [exact Hw|].
  destruct (r2 c =? 1); [|exact Hw]. cbn [negb].
  destruct (num_events c >? 0); cbn [negb].
  - split; [reflexivity|]. split; [exact Hact|].
    cbn [extend trace]. rewrite stdout_app, Hw. cbn [stdout].
    rewrite stdout_batch_calls. reflexivity.
  - cbn [log trace]. rewrite stdout_app, Hw. cbn [stdout].
    apply string_app_nil_r.
Qed.

(** What the loop adds to stdout: the batches of the iterations it
    completes, which are the first ones. *)
Lemma while_stdout (cycles : list cycle) :
  forall (last_ns : Z) (p : proc),
    sigint_action p = SIG_ctrl_c_handler ->
    exists n, (n <= List.length cycles)%nat /\
      stdout (trace (final (while_not_quitting sigint_at_test monitor
                              cycles last_ns p)))
      = (stdout (trace p) ++ session_text last_ns (firstn n cycles))%string.
Proof.
  induction cycles as [|c cycles IH]; intros last_ns p Ha.
  - exists 0%nat. split; [lia|]. cbn [while_not_quitting firstn session_text].
    unfold bind, get_quitting. destruct (quitting p); cbn [final ret halt];
      rewrite string_app_nil_r; reflexivity.
  - cbn [while_not_quitting]. unfold bind at 1, deliver. rewrite Ha.
    set (p1 := if sigint_at_test c then run_ctrl_c_handler p else p).
    assert (H1 : stdout (trace p1) = stdout (trace p)).
    { subst p1. destruct (sigint_at_test c); [|reflexivity].
      cbn [run_ctrl_c_handler trace]. rewrite stdout_app. cbn [stdout].
      apply string_app_nil_r. }
    assert (Ha1 : sigint_action p1 = SIG_ctrl_c_handler)
      by (subst p1; destruct (sigint_at_test c); exact Ha).
    replace (if sigint_at_test c then Next tt (run_ctrl_c_handler p)
             else Next tt p) with (Next tt p1)
      by (subst p1; destruct (sigint_at_test c); reflexivity).
    unfold bind at 1, get_quitting. destruct (quitting p1).
    + exists 0%nat. split; [lia|]. cbn [final ret firstn session_text].
      rewrite string_app_nil_r. exact H1.
    + unfold bind at 1.
      pose proof (monitor_stdout c last_ns p1 Ha1) as Hm.
      destruct (monitor c last_ns p1) as [[l|] p'|o p'].
      * destruct Hm as (-> & Ha' & Hs).
        destruct (IH (last_after last_ns (buffer c)) p' Ha') as (n & Hn & Hr).
        exists (S n). split; [simpl; lia|].
        rewrite Hr, Hs, H1. cbn [firstn session_text].
        rewrite string_app_assoc. reflexivity.
      * exists 0%nat. split; [lia|]. cbn [final ret firstn session_text].
        rewrite string_app_nil_r, Hm. exact H1.
      * exists 0%nat. split; [lia|]. cbn [final firstn session_text].
        rewrite string_app_nil_r, Hm. exact H1.
Qed.

Lemma stdout_during_set_up (k : nat) :
  (k < List.length set_up_calls)%nat ->
  stdout (firstn k set_up_calls) = EmptyString \/
  stdout (firstn k set_up_calls) = banner.
Proof.
  intros Hk. do 17 (destruct k as [|k]; [left; reflexivity|]).
  destruct k as [|k]; [right; reflexivity|]. simpl in Hk. lia.
Qed.

End InputEventsMore.

Lemma while_when_quitting (C S : Type) (arrival : C -> bool)
      (body : C -> S -> M (option S)) (cycles : list C) (s : S) (p : proc) :
  quitting p = true ->
  sigint_action p = SIG_ctrl_c_handler ->
  while_not_quitting arrival body cycles s p
  = Next s match cycles with
           | c :: _ => if arrival c then run_ctrl_c_handler p else p
           | [] => p
           end.
Proof.
  intros Hq Ha. destruct cycles as [|c rest]; cbn [while_not_quitting].
  - unfold bind, get_quitting. rewrite Hq. reflexivity.
  - unfold bind at 1, deliver. rewrite Ha.
    destruct (arrival c); unfold bind, get_quitting;
      cbn [run_ctrl_c_handler quitting]; rewrite ?Hq; reflexivity.
Qed.

Section InputEventsExtras.
Import InputEvents InputEventsFacts InputEventsMore Scenario.

(** X1.  input_events stops at the first call of the set-up whose result
    fails its assert: when no SIGINT arrives, the process aborts having made
    exactly the calls up to and including that one, and none after it. *)
Theorem input_events_aborts_at_first_failure
        (b : boot) (cycles : list cycle) (j : nat) :
  sigint_after b = None ->
  first_failure (checks b) = Some j ->
  exec b cycles
  = (Aborted,
     mkProc false (if sigint_ignored b then SIG_IGN else SIG_DFL) None
            (firstn (S j) before_signal)).
Proof.
  intros Hnone Hj. unfold exec, run, main, start, fresh.
  unfold bind at 1. rewrite input_events_set_up_steps, Hnone.
  rewrite (run_steps_aborts _ None install_handler (start_action b)
             (checks b) [] j Hj (fun i _ => kills_none _ _)).
  reflexivity.
Qed.

Lemma input_events_aborts_at_first_failure_witness :
  exec no_chip_boot [two_events]
  = (Aborted,
     mkProc false (if sigint_ignored no_chip_boot then SIG_IGN else SIG_DFL)
            None (firstn 11 before_signal)).
Proof.
  apply (input_events_aborts_at_first_failure no_chip_boot [two_events] 10);
    reflexivity.
Defined.

(** X2.  A SIGINT that arrives with the default action when k of the 18
    calls up to signal() have been made and succeeded, k at most 17, kills
    input_events on the spot: exactly these k calls are made, the handler is
    not installed and [quitting] is unset. *)
Theorem sigint_during_set_up_kills (b : boot) (cycles : list cycle) (k : nat) :
  sigint_ignored b = false ->
  sigint_after b = Some k ->
  (k <= 17)%nat ->
  forallb snd (firstn k (checks b)) = true ->
  exec b cycles
  = (Killed, mkProc false SIG_DFL (Some k) (firstn k before_signal)).
Proof.
  intros Hi Hk Hle Hok. unfold exec, run, main, start, fresh.
  unfold bind at 1. rewrite input_events_set_up_steps, Hi, Hk.
  assert (Hbefore : forall i, (i < k)%nat -> kills SIG_DFL (Some k) (0 + i) = false).
  { intros i Hlt. simpl. apply Nat.eqb_neq. lia. }
  destruct (Nat.eq_dec k 17) as [-> | Hne].
  - rewrite (run_steps_passes SIG_DFL (Some 17%nat) install_handler
               (fun H => match H with end || ltac:(discriminate)) (checks b) []
               Hok Hbefore) || idtac.
Abort.

End InputEventsExtras.
